(** * bet-tracker-pro: the bankroll ledger

    A shallow embedding of the ledger of bet-tracker-pro:
    - the SQL schema, row-level-security policies and the triggers
      [update_bank_balance] and [handle_new_user] of the migration (second
      part of [src/components/Layout.tsx]);
    - the write paths of the pages ([handleSubmit] of NewBet,
      [updateBetStatus] of History and DailyBets, [handleCreateBank] and
      [handleDeleteBank] of Banks);
    - the read paths ([fetchBets] of History and its pagination,
      [fetchDailyStats] of the Dashboard, [fetchBets] and
      [calculateDailySummary] of DailyBets).

    Conventions.
    - A [DECIMAL(10,2)] value is the integer number of hundredths it holds
      (1150.00 is [115000]); the column accepts exactly the values whose
      absolute value is below 10^8, that is below [10^10] hundredths, and a
      value with more than two decimals is rounded half away from zero when it
      is stored.
    - A table is the list of its rows, oldest first.
    - A statement either commits a new database or raises an error, in which
      case nothing of it is kept.
    - [NOW()] and [gen_random_uuid()] are inputs of the statement that uses
      them. *)

From Stdlib Require Import ZArith QArith Qround List Ascii String Bool Lia.
From Stdlib Require Import Permutation Sorting.Sorted.
Import ListNotations.

Local Open Scope string_scope.
Local Open Scope Z_scope.

(** ** Errors and the statement monad *)

Inductive error : Type :=
| numeric_field_overflow      (* 22003: value does not fit DECIMAL(10,2) *)
| rls_violation               (* 42501: new row violates a policy *)
| unique_violation            (* 23505: primary key already present *)
| foreign_key_violation       (* 23503: referenced bank does not exist *)
| not_null_violation.         (* 23502: NULL in a NOT NULL column *)

Inductive result (A : Type) : Type :=
| Ok (a : A)
| Err (e : error).
Arguments Ok {A} a.
Arguments Err {A} e.

Definition bind {A B : Type} (r : result A) (k : A -> result B) : result B :=
  match r with
  | Ok a => k a
  | Err e => Err e
  end.

Notation "x <- c ;; k" := (bind c (fun x => k))
  (at level 61, c at next level, right associativity).

Definition guard (b : bool) (e : error) : result unit :=
  if b then Ok tt else Err e.

(** ** DECIMAL(10,2) *)

(** The integer nearest to [n / d] (for [0 < d]), ties away from zero: the
    rounding PostgreSQL's [numeric] applies when a value is cast to a smaller
    scale. *)
Definition round_half_away (n d : Z) : Z :=
  Z.sgn n * ((2 * Z.abs n + d) / (2 * d)).

Definition NUMERIC_10_2_LIMIT : Z := 10 ^ 10.

(** Storing the exact value of [n / d] hundredths into a [DECIMAL(10,2)]
    column. *)
Definition numeric_10_2 (n d : Z) : result Z :=
  let r := round_half_away n d in
  if Z.abs r <? NUMERIC_10_2_LIMIT then Ok r else Err numeric_field_overflow.

(** ** Schema *)

(** [CREATE TYPE bet_status AS ENUM ('won', 'lost', 'open')] *)
Inductive bet_status : Type := won | lost | open.

Definition bet_status_eqb (a b : bet_status) : bool :=
  match a, b with
  | won, won | lost, lost | open, open => true
  | _, _ => false
  end.

(** [public.banks]; the fields of a bank carry the prefix [b_] where the
    table [bets] has a column of the same name. *)
Record bank : Type := mk_bank {
  b_id : string;
  b_user_id : string;
  name : string;
  initial_balance : Z;
  current_balance : Z;
  b_created_at : Z;
  b_updated_at : Z
}.

(** [public.bets]; [profit] and [description] are nullable. *)
Record bet : Type := mk_bet {
  id : string;
  bank_id : string;
  user_id : string;
  amount : Z;
  odds : Z;
  status : bet_status;
  bet_type : string;
  description : option string;
  profit : option Z;
  bet_date : Z;
  created_at : Z;
  updated_at : Z
}.

Record db : Type := mk_db {
  banks : list bank;
  bets : list bet
}.

Definition empty_db : db := mk_db [] [].

Definition set_profit (p : option Z) (b : bet) : bet :=
  mk_bet (id b) (bank_id b) (user_id b) (amount b) (odds b) (status b)
         (bet_type b) (description b) p (bet_date b) (created_at b)
         (updated_at b).

Definition set_updated_at (now : Z) (b : bet) : bet :=
  mk_bet (id b) (bank_id b) (user_id b) (amount b) (odds b) (status b)
         (bet_type b) (description b) (profit b) (bet_date b) (created_at b)
         now.

Definition set_current_balance (v now : Z) (k : bank) : bank :=
  mk_bank (b_id k) (b_user_id k) (name k) (initial_balance k) v
          (b_created_at k) now.

(** ** The trigger function [update_bank_balance] *)

(** Lines 285-292: the profit the trigger assigns to [NEW.profit].  [amount]
    and [odds] are [DECIMAL(10,2)] values, so [amount * odds - amount] is
    [(amount * odds - 100 * amount) / 100] hundredths; the assignment casts it
    to the type of the column [profit], [DECIMAL(10,2)]. *)
Definition settle (amount odds : Z) (st : bet_status) : result Z :=
  match st with
  | won => numeric_10_2 (amount * odds - 100 * amount) 100
  | lost => numeric_10_2 (- amount) 1
  | open => numeric_10_2 0 1
  end.

(** SQL [SUM]: NULL inputs are skipped, and the sum of no value is NULL. *)
Fixpoint SUM (vs : list (option Z)) : option Z :=
  match vs with
  | [] => None
  | v :: rest =>
      match v, SUM rest with
      | None, s => s
      | Some x, None => Some x
      | Some x, Some s => Some (x + s)
      end
  end.

Definition COALESCE (v : option Z) (d : Z) : Z :=
  match v with
  | Some x => x
  | None => d
  end.

(** [SELECT COALESCE(SUM(profit), 0) FROM public.bets
     WHERE bank_id = k AND status != 'open'] *)
Definition settled_profit (k : string) (rows : list bet) : Z :=
  COALESCE
    (SUM (map profit
            (filter (fun b => (bank_id b =? k)%string
                              && negb (bet_status_eqb (status b) open))
                    rows)))
    0.

(** Lines 295-302: [UPDATE public.banks SET current_balance = ...,
    updated_at = NOW() WHERE id = k], over the rows [rows] of [bets]. *)
Fixpoint update_banks (now : Z) (k : string) (rows : list bet)
         (bs : list bank) : result (list bank) :=
  match bs with
  | [] => Ok []
  | b :: rest =>
      b' <- (if (b_id b =? k)%string
             then v <- numeric_10_2
                         (initial_balance b + settled_profit k rows) 1 ;;
                  Ok (set_current_balance v now b)
             else Ok b) ;;
      rest' <- update_banks now k rows rest ;;
      Ok (b' :: rest')
  end.

(** The Balance Reconciler: the [UPDATE] statement of the trigger, run on a
    database. *)
Definition reconcile (now : Z) (k : string) (d : db) : result db :=
  bs <- update_banks now k (bets d) (banks d) ;;
  Ok (mk_db bs (bets d)).

(** The whole function, called with the row [NEW] about to be written and the
    database as it is before that write ([BEFORE INSERT OR UPDATE ... FOR
    EACH ROW]).  It is [SECURITY DEFINER]: its statements run as the owner of
    the tables, which no policy restricts. *)
Definition update_bank_balance (now : Z) (NEW : bet) (d : db)
  : result (bet * db) :=
  p <- settle (amount NEW) (odds NEW) (status NEW) ;;
  let NEW' := set_profit (Some p) NEW in
  d' <- reconcile now (bank_id NEW') d ;;
  Ok (NEW', d').

(** ** Statements on [bets] and [banks], as the caller [uid] ([auth.uid()]) *)

(** [SELECT * FROM bets] and [SELECT * FROM banks] under the policies
    ["Users can view their own ..."]: [USING (auth.uid() = user_id)]. *)
Definition select_bets (uid : string) (d : db) : list bet :=
  filter (fun r => (user_id r =? uid)%string) (bets d).

Definition select_banks (uid : string) (d : db) : list bank :=
  filter (fun k => (b_user_id k =? uid)%string) (banks d).

Definition bank_exists (k : string) (bs : list bank) : bool :=
  existsb (fun b => (b_id b =? k)%string) bs.

Definition bet_exists (i : string) (rows : list bet) : bool :=
  existsb (fun r => (id r =? i)%string) rows.

(** [INSERT INTO bets]: the row [NEW] is the row of the statement with the
    defaults of the table filled in ([id], [created_at], [updated_at],
    [bet_type], and NULL for an absent [profit]).  In order: the casts to the
    column types, the trigger [update_bet_profit], the policy
    ["Users can create their own bets"] ([WITH CHECK (auth.uid() = user_id)]),
    the primary key, the write, and the foreign key to [banks]. *)
Definition insert_bet (uid : string) (now : Z) (NEW : bet) (d : db)
  : result db :=
  _ <- numeric_10_2 (amount NEW) 1 ;;
  _ <- numeric_10_2 (odds NEW) 1 ;;
  t <- update_bank_balance now NEW d ;;
  let (NEW', d') := t in
  _ <- guard (user_id NEW' =? uid)%string rls_violation ;;
  _ <- guard (negb (bet_exists (id NEW') (bets d'))) unique_violation ;;
  _ <- guard (bank_exists (bank_id NEW') (banks d')) foreign_key_violation ;;
  Ok (mk_db (banks d') (bets d' ++ [NEW'])).

(** The [SET] list of an [UPDATE bets]: the columns a statement may assign
    ([None]: the column is not in the list).  [id], [user_id] and
    [created_at] are assigned by no page and left out. *)
Record bet_patch : Type := mk_patch {
  p_bank_id : option string;
  p_amount : option Z;
  p_odds : option Z;
  p_status : option bet_status;
  p_description : option (option string);
  p_profit : option (option Z);
  p_bet_date : option Z
}.

Definition or_old {A : Type} (new : option A) (old : A) : A :=
  match new with
  | Some v => v
  | None => old
  end.

Definition apply_patch (p : bet_patch) (OLD : bet) : bet :=
  mk_bet (id OLD)
         (or_old (p_bank_id p) (bank_id OLD))
         (user_id OLD)
         (or_old (p_amount p) (amount OLD))
         (or_old (p_odds p) (odds OLD))
         (or_old (p_status p) (status OLD))
         (bet_type OLD)
         (or_old (p_description p) (description OLD))
         (or_old (p_profit p) (profit OLD))
         (or_old (p_bet_date p) (bet_date OLD))
         (created_at OLD)
         (updated_at OLD).

(** [UPDATE bets SET ... WHERE id = betId] under the policy
    ["Users can update their own bets"] ([USING (auth.uid() = user_id)], which
    is also the check on the new row).  The rows are processed in turn:
    [done] are the rows already processed, as they are now, and [todo] the rows
    still to look at, so the table the trigger reads while it processes a row
    [r] is [done ++ r :: rest], with [r] as it was before the update.  The two
    [BEFORE UPDATE] triggers run in the order of their names,
    [update_bet_profit] then [update_bets_updated_at]. *)
Fixpoint update_rows (uid : string) (now : Z) (betId : string)
         (p : bet_patch) (done todo : list bet) (bs : list bank)
  : result db :=
  match todo with
  | [] => Ok (mk_db bs done)
  | r :: rest =>
      if ((id r =? betId) && (user_id r =? uid))%string then
        _ <- numeric_10_2 (or_old (p_amount p) (amount r)) 1 ;;
        _ <- numeric_10_2 (or_old (p_odds p) (odds r)) 1 ;;
        t <- update_bank_balance now (apply_patch p r)
                                 (mk_db bs (done ++ r :: rest)) ;;
        let (NEW', d') := t in
        let NEW'' := set_updated_at now NEW' in
        _ <- guard (user_id NEW'' =? uid)%string rls_violation ;;
        _ <- guard ((bank_id NEW'' =? bank_id r)%string
                    || bank_exists (bank_id NEW'') (banks d'))
                   foreign_key_violation ;;
        update_rows uid now betId p (done ++ [NEW'']) rest (banks d')
      else
        update_rows uid now betId p (done ++ [r]) rest bs
  end.

Definition update_bet (uid : string) (now : Z) (betId : string)
           (p : bet_patch) (d : db) : result db :=
  update_rows uid now betId p [] (bets d) (banks d).

(** [DELETE FROM bets WHERE id = betId] under the policy
    ["Users can delete their own bets"].  The trigger [update_bet_profit] is
    declared [BEFORE INSERT OR UPDATE]: no trigger runs here. *)
Definition delete_bet (uid : string) (betId : string) (d : db) : result db :=
  Ok (mk_db (banks d)
            (filter (fun r => negb ((id r =? betId) && (user_id r =? uid))%string)
                    (bets d))).

(** [INSERT INTO banks] under ["Users can create their own banks"]. *)
Definition insert_bank (uid : string) (NEW : bank) (d : db) : result db :=
  _ <- numeric_10_2 (initial_balance NEW) 1 ;;
  _ <- numeric_10_2 (current_balance NEW) 1 ;;
  _ <- guard (b_user_id NEW =? uid)%string rls_violation ;;
  _ <- guard (negb (bank_exists (b_id NEW) (banks d))) unique_violation ;;
  Ok (mk_db (banks d ++ [NEW]) (bets d)).

(** [DELETE FROM banks WHERE id = bankId] under ["Users can delete their own
    banks"]; [bets.bank_id] is [REFERENCES banks(id) ON DELETE CASCADE], and
    the cascade is not subject to the policies of [bets]. *)
Definition delete_bank (uid : string) (bankId : string) (d : db) : result db :=
  let gone := fun k => ((b_id k =? bankId) && (b_user_id k =? uid))%string in
  let bs := filter (fun k => negb (gone k)) (banks d) in
  Ok (mk_db bs
            (filter (fun r => negb (existsb gone (banks d)
                                    && (bank_id r =? bankId)%string))
                    (bets d))).

(** ** The pages *)

(** A JavaScript number as [parseFloat] returns it: not-a-number, or a
    finite value, taken as the rational it denotes. *)
Inductive number : Type :=
| NaN
| Finite (q : Q).

Definition isNaN (x : number) : bool :=
  match x with
  | NaN => true
  | Finite _ => false
  end.

(** [x <= c] and [x < c]; a comparison with [NaN] is false. *)
Definition num_le (x : number) (c : Q) : bool :=
  match x with
  | NaN => false
  | Finite q => Qle_bool q c
  end.

Definition num_lt (x : number) (c : Q) : bool :=
  match x with
  | NaN => false
  | Finite q => negb (Qle_bool c q)
  end.

(** A number of the payload stored in a [DECIMAL(10,2) NOT NULL] column
    ([NaN] is serialised as [null]). *)
Definition number_to_numeric (x : number) : result Z :=
  match x with
  | NaN => Err not_null_violation
  | Finite q => numeric_10_2 (100 * Qnum q) (Zpos (Qden q))
  end.

(** The messages of the destructive toasts of [handleSubmit]:
    "El monto debe ser un numero positivo", "La cuota debe ser mayor o igual a
    1", "Debes seleccionar un bank", and the message of a failed insert. *)
Inductive submit_outcome : Type :=
| toast_amount_not_positive
| toast_odds_below_one
| toast_no_bank_selected
| no_session
| toast_insert_failed (e : error)
| toast_registered.

(** The state of the form of NewBet, with [amount] and [odds] already through
    [parseFloat]. *)
Record new_bet_form : Type := mk_form {
  bankId : string;
  betAmount : number;
  betOdds : number;
  f_status : bet_status;
  f_description : string;
  betDate : Z
}.

(** [handleSubmit] of NewBet (DailyBets.tsx, lines 391-465).  [session] is
    the signed-in user, if any; [new_id] is the identifier the table
    generates for the row. *)
Definition handleSubmit (session : option string) (now : Z) (new_id : string)
           (f : new_bet_form) (d : db) : submit_outcome * db :=
  if isNaN (betAmount f) || num_le (betAmount f) 0 then
    (toast_amount_not_positive, d)
  else if isNaN (betOdds f) || num_lt (betOdds f) 1 then
    (toast_odds_below_one, d)
  else if (bankId f =? EmptyString)%string then
    (toast_no_bank_selected, d)
  else
    match session with
    | None => (no_session, d)
    | Some uid =>
        match
          (a <- number_to_numeric (betAmount f) ;;
           o <- number_to_numeric (betOdds f) ;;
           insert_bet uid now
             (mk_bet new_id (bankId f) uid a o (f_status f) "simple"
                     (Some (f_description f)) None (betDate f) now now)
             d)
        with
        | Ok d' => (toast_registered, d')
        | Err e => (toast_insert_failed e, d)
        end
    end.

(** [updateBetStatus] of History and of DailyBets:
    [.update({ status: newStatus }).eq("id", betId)]. *)
Definition status_patch (newStatus : bet_status) : bet_patch :=
  mk_patch None None None (Some newStatus) None None None.

Definition updateBetStatus (uid : string) (now : Z) (betId : string)
           (newStatus : bet_status) (d : db) : result db :=
  update_bet uid now betId (status_patch newStatus) d.

(** [handleCreateBank] of Banks, after its validation: the insert. *)
Definition createBank (uid : string) (now : Z) (new_id newBankName : string)
           (balance : Z) (d : db) : result db :=
  insert_bank uid (mk_bank new_id uid newBankName balance balance now now) d.

(** ** The history page *)

Definition ITEMS_PER_PAGE : Z := 10.

(** SQL leaves open the order a query gives to rows with equal
    [(bet_date, created_at)], and two queries need not agree on it.  A
    [tie_order] is the choice of one query: [tie a b] says whether that query
    puts [a] before [b] when their keys are equal.  [table_order] keeps such
    rows in the order of the table. *)
Definition tie_order : Type := bet -> bet -> bool.

Definition table_order : tie_order := fun _ _ => true.

(** [.order("bet_date", { ascending: false })
     .order("created_at", { ascending: false })]: [a] comes before [b] in the
    answer of a query whose ties are decided by [tie]. *)
Definition history_before (tie : tie_order) (a b : bet) : bool :=
  (bet_date b <? bet_date a)
  || ((bet_date b =? bet_date a)
      && ((created_at b <? created_at a)
          || ((created_at b =? created_at a) && tie a b))).

Fixpoint insert_sorted (tie : tie_order) (x : bet) (l : list bet)
  : list bet :=
  match l with
  | [] => [x]
  | y :: rest =>
      if history_before tie x y then x :: l
      else y :: insert_sorted tie x rest
  end.

(** [ORDER BY bet_date DESC, created_at DESC], as one query answers it. *)
Definition order_by_history (tie : tie_order) (l : list bet) : list bet :=
  fold_right (insert_sorted tie) [] l.

(** [.range(from, to)]: the rows at the offsets [from] to [to], both
    included ([OFFSET from LIMIT to - from + 1]). *)
Definition range {A : Type} (from to : Z) (l : list A) : list A :=
  firstn (Z.to_nat (to - from + 1)) (skipn (Z.to_nat from) l).

(** The query of [fetchBets] before ordering and windowing: the rows the
    count is taken over.  [statusFilter] is [None] for ["all"]. *)
Definition history_matching (uid : string) (d : db) (selectedBank : string)
           (statusFilter : option bet_status) : list bet :=
  let q := filter (fun r => (bank_id r =? selectedBank)%string)
                  (select_bets uid d) in
  match statusFilter with
  | None => q
  | Some s => filter (fun r => bet_status_eqb (status r) s) q
  end.

(** [fetchBets] of History (lines 81-100): the rows given to [setBets] and the
    count given to [setTotalBets], for one run of the query, whose ties are
    ordered by [tie]. *)
Definition fetchBets (tie : tie_order) (uid : string) (d : db)
           (selectedBank : string) (statusFilter : option bet_status)
           (currentPage : Z)
  : list bet * Z :=
  let q := history_matching uid d selectedBank statusFilter in
  (range ((currentPage - 1) * ITEMS_PER_PAGE)
         (currentPage * ITEMS_PER_PAGE - 1)
         (order_by_history tie q),
   Z.of_nat (List.length q)).

(** [Math.ceil(totalBets / ITEMS_PER_PAGE)] *)
Definition totalPages (totalBets : Z) : Z :=
  (totalBets + ITEMS_PER_PAGE - 1) / ITEMS_PER_PAGE.

(** ** The daily aggregates *)

(** [bet.profit || 0]: [null] and [0] are falsy. *)
Definition profit_or_0 (p : option Z) : Z :=
  match p with
  | None => 0
  | Some v => if v =? 0 then 0 else v
  end.

Record DailyStats : Type := mk_stats {
  total_bets : Z;
  total_won : Z;
  total_lost : Z;
  net_profit : Z
}.

(** The reducer of [fetchDailyStats] (Dashboard, lines 101-114).  The three
    counters are exact in the code as they are here.  [net_profit] is summed
    here over exact hundredths; the code adds JavaScript numbers, whose sum
    of several profits is the exact sum only up to rounding, so nothing below
    relies on the value of a sum of two or more non-zero profits. *)
Definition daily_step (acc : DailyStats) (b : bet) : DailyStats :=
  let acc := mk_stats (total_bets acc + 1) (total_won acc) (total_lost acc)
                      (net_profit acc) in
  match status b with
  | won => mk_stats (total_bets acc) (total_won acc + 1) (total_lost acc)
                    (net_profit acc + profit_or_0 (profit b))
  | lost => mk_stats (total_bets acc) (total_won acc) (total_lost acc + 1)
                     (net_profit acc + profit_or_0 (profit b))
  | open => acc
  end.

Definition daily_reduce (data : list bet) : DailyStats :=
  fold_left daily_step data (mk_stats 0 0 0 0).

Definition fetchDailyStats (uid : string) (d : db) (bankId : string)
           (today : Z) : DailyStats :=
  daily_reduce
    (filter (fun r => (bet_date r =? today))
            (filter (fun r => (bank_id r =? bankId)%string)
                    (select_bets uid d))).

Record DailySummary : Type := mk_summary {
  total : Z;
  s_won : Z;
  s_lost : Z;
  s_profit : Z;
  wagered : Z
}.

(** [calculateDailySummary] of DailyBets (lines 122-138).  As for
    [daily_step], the counters are exact, and [s_profit] and [wagered] are
    summed here over exact hundredths where the code adds JavaScript
    numbers. *)
Definition summary_step (acc : DailySummary) (b : bet) : DailySummary :=
  let acc := mk_summary (total acc + 1) (s_won acc) (s_lost acc)
                        (s_profit acc) (wagered acc) in
  let acc :=
    match status b with
    | won => mk_summary (total acc) (s_won acc + 1) (s_lost acc)
                        (s_profit acc + profit_or_0 (profit b)) (wagered acc)
    | lost => mk_summary (total acc) (s_won acc) (s_lost acc + 1)
                         (s_profit acc + profit_or_0 (profit b)) (wagered acc)
    | open => acc
    end in
  mk_summary (total acc) (s_won acc) (s_lost acc) (s_profit acc)
             (wagered acc + amount b).

Definition calculateDailySummary (bets : list bet) : DailySummary :=
  fold_left summary_step bets (mk_summary 0 0 0 0 0).

(** ** Vocabulary of the properties *)

(** What one bank row becomes under the [UPDATE] of the trigger. *)
Definition reconciled_row (now : Z) (k : string) (rows : list bet)
           (b b' : bank) : Prop :=
  if (b_id b =? k)%string
  then b' = set_current_balance
              (initial_balance b + settled_profit k rows) now b
       /\ Z.abs (initial_balance b + settled_profit k rows)
          < NUMERIC_10_2_LIMIT
  else b' = b.

(** The stored profit of a wager is what the settlement function gives for
    its stake, odds and outcome. *)
Definition settled (b : bet) : Prop :=
  exists p, settle (amount b) (odds b) (status b) = Ok p /\ profit b = Some p.

(** The core invariant, for every bank of the database. *)
Definition balance_invariant (d : db) : Prop :=
  forall k, In k (banks d) ->
            current_balance k
            = initial_balance k + settled_profit (b_id k) (bets d).

Definition balance_invariantb (d : db) : bool :=
  forallb (fun k => current_balance k
                    =? initial_balance k + settled_profit (b_id k) (bets d))
          (banks d).

(** The writes a caller can issue, and runs of them: a statement that raises
    an error leaves the database as it was. *)
Inductive op : Type :=
| op_insert_bet (uid : string) (now : Z) (NEW : bet)
| op_update_bet (uid : string) (now : Z) (betId : string) (p : bet_patch)
| op_delete_bet (uid : string) (betId : string)
| op_insert_bank (uid : string) (NEW : bank)
| op_delete_bank (uid : string) (bankId : string).

Definition exec (o : op) (d : db) : result db :=
  match o with
  | op_insert_bet uid now NEW => insert_bet uid now NEW d
  | op_update_bet uid now betId p => update_bet uid now betId p d
  | op_delete_bet uid betId => delete_bet uid betId d
  | op_insert_bank uid NEW => insert_bank uid NEW d
  | op_delete_bank uid bankId => delete_bank uid bankId d
  end.

Definition step (d : db) (o : op) : db :=
  match exec o d with
  | Ok d' => d'
  | Err _ => d
  end.

Definition run (ops : list op) (d : db) : db := fold_left step ops d.

(** ** The scenario of the specification

    One bank of 1000.00 owned by alice; a wager of 100.00 at 2.50, won; a
    wager of 50.00 at 1.80, lost; the first wager reopened. *)
Definition bank_1 : bank := mk_bank "bank-1" "alice" "Bet365" 100000 100000 0 0.
Definition db_0 : db := mk_db [bank_1] [].
Definition wager_1 : bet :=
  mk_bet "w1" "bank-1" "alice" 10000 250 won "simple" None None 1 1 1.
Definition wager_2 : bet :=
  mk_bet "w2" "bank-1" "alice" 5000 180 lost "simple" None None 1 2 2.
Definition wager_3 : bet :=
  mk_bet "w3" "bank-1" "alice" 2000 300 open "simple" None None 1 3 3.

(** The first wager as the database holds it once it is reopened at time 3. *)
Definition wager_1_reopened : bet :=
  mk_bet "w1" "bank-1" "alice" 10000 250 open "simple" None (Some 0) 1 1 3.

Definition balances (d : db) : list Z := map current_balance (banks d).
Definition profits (d : db) : list (option Z) := map profit (bets d).

(** A second user, mallory, who files wagers of her own under alice's
    bank. *)
Definition intruder_1 : bet :=
  mk_bet "m1" "bank-1" "mallory" 10000 250 won "simple" None None 1 1 1.
Definition intruder_2 : bet :=
  mk_bet "m2" "bank-1" "mallory" 10000 250 won "simple" None None 1 2 2.

(** The forms of the scenario, and a form with a stake of zero. *)
Definition form_1 : new_bet_form :=
  mk_form "bank-1" (Finite 100) (Finite (5 # 2)) won EmptyString 1.
Definition form_2 : new_bet_form :=
  mk_form "bank-1" (Finite 50) (Finite (9 # 5)) lost EmptyString 1.
Definition form_zero_stake : new_bet_form :=
  mk_form "bank-1" (Finite 0) (Finite (5 # 2)) won EmptyString 1.

(** The constraint a validation toast of [handleSubmit] names is violated by
    the form. *)
Inductive violates (f : new_bet_form) : submit_outcome -> Prop :=
| violates_amount :
    betAmount f = NaN \/ (exists q, betAmount f = Finite q /\ (q <= 0)%Q) ->
    violates f toast_amount_not_positive
| violates_odds :
    betOdds f = NaN \/ (exists q, betOdds f = Finite q /\ (q < 1)%Q) ->
    violates f toast_odds_below_one
| violates_bank :
    bankId f = EmptyString ->
    violates f toast_no_bank_selected.

(** What a wager adds to the net profit of a daily aggregate. *)
Definition contribution (b : bet) : Z :=
  match status b with
  | open => 0
  | _ => profit_or_0 (profit b)
  end.

Fixpoint count_status (s : bet_status) (l : list bet) : Z :=
  match l with
  | [] => 0
  | b :: rest =>
      (if bet_status_eqb (status b) s then 1 else 0) + count_status s rest
  end.

Fixpoint sum_contributions (l : list bet) : Z :=
  match l with
  | [] => 0
  | b :: rest => contribution b + sum_contributions rest
  end.

Fixpoint sum_amounts (l : list bet) : Z :=
  match l with
  | [] => 0
  | b :: rest => amount b + sum_amounts rest
  end.

(** A won wager whose profit is NULL, and an open one. *)
Definition wager_null : bet :=
  mk_bet "w4" "bank-1" "alice" 10000 250 won "simple" None None 1 4 4.
Definition wager_open : bet :=
  mk_bet "w5" "bank-1" "alice" 10000 250 open "simple" None (Some 0) 1 5 5.

(** The wagers a request for the history is about, in the words of the
    specification: the wagers of the caller, of the bank, and of the outcome
    when the filter names one ([None] is "all").  [history_wantedb] decides
    it, to count them in the stored table. *)
Definition history_wanted (uid selectedBank : string)
           (statusFilter : option bet_status) (r : bet) : Prop :=
  user_id r = uid /\ bank_id r = selectedBank
  /\ forall s, statusFilter = Some s -> status r = s.

Definition history_wantedb (uid selectedBank : string)
           (statusFilter : option bet_status) (r : bet) : bool :=
  ((user_id r =? uid) && (bank_id r =? selectedBank))%string
  && match statusFilter with
     | None => true
     | Some s => bet_status_eqb (status r) s
     end.

(** Twenty-five open wagers of alice in her bank, created one after the
    other on the same day: three pages of history. *)
Definition numbered_bet (n : nat) : bet :=
  mk_bet (String (ascii_of_nat (64 + n)) EmptyString) "bank-1" "alice"
         1000 200 open "simple" None (Some 0) 1 (Z.of_nat n) (Z.of_nat n).

Definition db_25 : db := mk_db [bank_1] (map numbered_bet (seq 1 25)).

(** Settlement date descending, then creation timestamp descending. *)
Definition history_order (a b : bet) : Prop :=
  bet_date b < bet_date a
  \/ (bet_date b = bet_date a /\ created_at b <= created_at a).

(** The three wagers of alice, stored. *)
Definition db_3 : db :=
  run [op_insert_bet "alice" 1 wager_1;
       op_insert_bet "alice" 2 wager_2;
       op_insert_bet "alice" 3 wager_3] db_0.

(** The first two wagers stored, and that database after a reconciliation
    of its bank at time 4: the balance is 1000.00 + 150.00 - 50.00. *)
Definition db_2 : db :=
  run [op_insert_bet "alice" 1 wager_1;
       op_insert_bet "alice" 2 wager_2] db_0.

Definition db_2_reconciled : db :=
  mk_db [mk_bank "bank-1" "alice" "Bet365" 100000 110000 0 4] (bets db_2).

(** ** Further code of the repository *)

(** [public.profiles] and the trigger function [handle_new_user]
    (Layout.tsx, lines 169-206). *)
Record profile : Type := mk_profile {
  pr_id : string;
  username : string;
  pr_created_at : Z
}.

(** [split_part(s, delim, 1)] for a delimiter of one character: the text
    before the first occurrence of the delimiter, all of [s] when there is
    none. *)
Fixpoint split_part_1 (s : string) (delim : Ascii.ascii) : string :=
  match s with
  | EmptyString => EmptyString
  | String c rest =>
      if Ascii.eqb c delim then EmptyString
      else String c (split_part_1 rest delim)
  end.

Definition COALESCE_text (a b : option string) : option string :=
  match a with
  | Some _ => a
  | None => b
  end.

(** [handle_new_user], run [AFTER INSERT ON auth.users] for the user
    [new_id] with the metadata entry [username] ([None] when the key is
    absent) and the e-mail address [email] ([None] when NULL): the insert
    into [profiles], with its [NOT NULL], primary key and [UNIQUE]
    constraints. *)
Definition handle_new_user (now : Z) (new_id : string)
           (meta_username email : option string) (ps : list profile)
  : result (list profile) :=
  match COALESCE_text meta_username
          (option_map (fun e => split_part_1 e "@"%char) email) with
  | None => Err not_null_violation
  | Some u =>
      _ <- guard (negb (existsb (fun q => (pr_id q =? new_id)%string) ps))
                 unique_violation ;;
      _ <- guard (negb (existsb (fun q => (username q =? u)%string) ps))
                 unique_violation ;;
      Ok (ps ++ [mk_profile new_id u now])%list
  end.

(** The toasts of [handleCreateBank] (Banks.tsx, lines 73-115): "El balance
    debe ser un numero positivo", the message of a failed insert, "Bank
    creado". *)
Inductive create_bank_outcome : Type :=
| toast_balance_invalid
| create_no_session
| toast_create_failed (e : error)
| toast_bank_created.

Definition handleCreateBank (session : option string) (now : Z)
           (new_id newBankName : string) (balance : number) (d : db)
  : create_bank_outcome * db :=
  if isNaN balance || num_lt balance 0 then (toast_balance_invalid, d)
  else
    match session with
    | None => (create_no_session, d)
    | Some uid =>
        match (b <- number_to_numeric balance ;;
               createBank uid now new_id newBankName b d) with
        | Ok d' => (toast_bank_created, d')
        | Err e => (toast_create_failed e, d)
        end
    end.

(** [handleDeleteBank] (Banks.tsx, lines 117-136):
    [.from("banks").delete().eq("id", bankId)]. *)
Definition handleDeleteBank (uid : string) (bankId : string) (d : db)
  : result db :=
  delete_bank uid bankId d.

(** The buttons of the pagination of History (lines 292 and 300):
    [Math.max(1, p - 1)] and [Math.min(totalPages, p + 1)]. *)
Definition prevPage (p : Z) : Z := Z.max 1 (p - 1).

Definition nextPage (totalBets p : Z) : Z :=
  Z.min (totalPages totalBets) (p + 1).

(** [fetchBets] of DailyBets (lines 78-88): the wagers of a bank and a date,
    [.order("created_at", { ascending: false })]. *)
Fixpoint insert_by (before : bet -> bet -> bool) (x : bet) (l : list bet)
  : list bet :=
  match l with
  | [] => [x]
  | y :: rest =>
      if before x y then x :: l else y :: insert_by before x rest
  end.

Definition sort_by (before : bet -> bet -> bool) (l : list bet) : list bet :=
  fold_right (insert_by before) [] l.

Definition created_before (a b : bet) : bool :=
  created_at b <=? created_at a.

Definition dailyFetchBets (uid : string) (d : db) (selectedBank : string)
           (selectedDate : Z) : list bet :=
  sort_by created_before
    (filter (fun r => bet_date r =? selectedDate)
            (filter (fun r => (bank_id r =? selectedBank)%string)
                    (select_bets uid d))).

(** ** Vocabulary of the further properties *)

(** Keys: the identifiers of the wagers and of the banks are unique, and
    every wager refers to a bank that exists. *)
Definition integrity (d : db) : Prop :=
  NoDup (map id (bets d))
  /\ NoDup (map b_id (banks d))
  /\ Forall (fun r => bank_exists (bank_id r) (banks d) = true) (bets d).

(** The pages 1 to [totalPages] of the history, as [fetchBets] gives them:
    page [p] comes from a query of its own, whose ties are ordered by
    [ties p]. *)
Definition history_pages (ties : nat -> tie_order) (uid : string) (d : db)
           (selectedBank : string) (statusFilter : option bet_status)
  : list (list bet) :=
  let T := snd (fetchBets (ties 1%nat) uid d selectedBank statusFilter 1) in
  map (fun p => fst (fetchBets (ties p) uid d selectedBank statusFilter
                               (Z.of_nat p)))
      (seq 1 (Z.to_nat (totalPages T))).

(** Does the character occur in the string? *)
Fixpoint occurs (c : Ascii.ascii) (s : string) : bool :=
  match s with
  | EmptyString => false
  | String c' rest => Ascii.eqb c' c || occurs c rest
  end.

(** A bank that overflows when reconciled, a wager at odds 1.00, and forms
    of the further examples. *)
Definition bank_full : bank :=
  mk_bank "bank-9" "alice" "Full" 9999999999 9999999999 0 0.
Definition db_full : db :=
  mk_db [bank_full]
        [mk_bet "w9" "bank-9" "alice" 100 200 won "simple" None (Some 100)
                1 1 1].

(** * Properties *)

(** ** The monad *)

Lemma bind_Ok {A B : Type} (r : result A) (k : A -> result B) (b : B) :
  bind r k = Ok b -> exists a, r = Ok a /\ k a = Ok b.
Proof.
  destruct r as [a | e]; simpl; intros H.
  - now exists a.
  - discriminate.
Qed.

Lemma guard_Ok (c : bool) (e : error) (u : unit) :
  guard c e = Ok u -> c = true.
Proof.
  destruct c; simpl; [reflexivity | discriminate].
Qed.

Ltac bind_inv H :=
  let a := fresh "a" in
  let Ha := fresh "Ha" in
  apply bind_Ok in H; destruct H as (a & Ha & H).

(** ** Rounding *)

Lemma round_half_away_nonneg (n d : Z) :
  0 <= n -> 0 < d ->
  let p := round_half_away n d in
  0 <= p /\ 2 * d * p <= 2 * n + d < 2 * d * p + 2 * d.
Proof.
  intros Hn Hd p. subst p. unfold round_half_away.
  rewrite (Z.abs_eq n) by assumption.
  assert (Hq : 0 <= (2 * n + d) / (2 * d)) by (apply Z.div_pos; lia).
  pose proof (Z.div_mod (2 * n + d) (2 * d) ltac:(lia)) as E.
  pose proof (Z.mod_pos_bound (2 * n + d) (2 * d) ltac:(lia)) as B.
  destruct (Z.eq_dec n 0) as [-> | Hnz].
  - simpl Z.sgn. rewrite Z.mul_0_l.
    split; [lia |].
    replace ((2 * 0 + d)) with d in * by lia. lia.
  - rewrite (Z.sgn_pos n) by lia. rewrite Z.mul_1_l.
    split; [assumption | lia].
Qed.

Lemma round_half_away_unit (n : Z) : round_half_away n 1 = n.
Proof.
  unfold round_half_away.
  replace (2 * Z.abs n + 1) with (1 + Z.abs n * (2 * 1)) by lia.
  rewrite Z.div_add by lia.
  change (1 / (2 * 1)) with 0. rewrite Z.add_0_l.
  destruct (Z.sgn_spec n) as [(H & ->) | [(H & ->) | (H & ->)]]; lia.
Qed.

Lemma numeric_10_2_unit (n : Z) :
  numeric_10_2 n 1 =
  if Z.abs n <? NUMERIC_10_2_LIMIT then Ok n else Err numeric_field_overflow.
Proof.
  unfold numeric_10_2. now rewrite round_half_away_unit.
Qed.

Lemma numeric_10_2_unit_Ok (n v : Z) :
  numeric_10_2 n 1 = Ok v -> v = n /\ Z.abs n < NUMERIC_10_2_LIMIT.
Proof.
  rewrite numeric_10_2_unit.
  destruct (Z.abs n <? NUMERIC_10_2_LIMIT) eqn:E; [| discriminate].
  intros [= <-]. apply Z.ltb_lt in E. now split.
Qed.

(** ** C3: the settlement function *)

(** C3, as stated, fails: a stake of 33.33 won at odds 1.85 gives
    33.33 * 1.85 - 33.33 = 28.3305, and the profit the trigger stores is
    28.33: no stored profit [p] satisfies [p = stake * odds - stake]. *)
Lemma settle_won_not_exact :
  ~ (forall a o : Z, 0 < a -> 100 <= o ->
       exists p, settle a o won = Ok p /\ 100 * p = a * o - 100 * a).
Proof.
  intros H. destruct (H 3333 185 ltac:(lia) ltac:(lia)) as (p & Hp & E).
  vm_compute in Hp. injection Hp as <-. discriminate E.
Qed.

(** C3 (amended): for a stake [a > 0] and odds [o >= 1] held in
    [DECIMAL(10,2)] columns, the profit of a lost wager is [- a], the profit
    of an open wager is [0], and the profit of a won wager is
    [a * o - a] rounded to two decimals, ties away from zero: it is exactly
    [a * o - a] when that value has at most two decimals, and the statement
    fails with a numeric overflow when the rounded value does not fit the
    column. *)
Theorem settle_spec (a o : Z) :
  0 < a < NUMERIC_10_2_LIMIT -> 100 <= o ->
  settle a o lost = Ok (- a) /\
  settle a o open = Ok 0 /\
  let x := a * o - 100 * a in
  let p := round_half_away x 100 in
  100 * p - 50 <= x < 100 * p + 50 /\
  (x mod 100 = 0 -> 100 * p = x) /\
  settle a o won =
    if p <? NUMERIC_10_2_LIMIT then Ok p else Err numeric_field_overflow.
Proof.
  intros Ha Ho. split; [| split].
  - simpl. rewrite numeric_10_2_unit.
    replace (Z.abs (- a) <? NUMERIC_10_2_LIMIT) with true; [reflexivity |].
    symmetry. apply Z.ltb_lt. lia.
  - reflexivity.
  - intros x p.
    assert (Hx : 0 <= x) by (subst x; nia).
    destruct (round_half_away_nonneg x 100 Hx ltac:(lia)) as (Hp & Hb).
    fold p in Hp, Hb.
    split; [lia | split].
    + intros Hm.
      pose proof (Z.div_mod x 100 ltac:(lia)) as E. rewrite Hm in E. lia.
    + unfold settle, numeric_10_2. fold x. fold p.
      now rewrite (Z.abs_eq p) by assumption.
Qed.

Lemma settle_spec_witness :
  settle 10000 250 lost = Ok (- 10000) /\
  settle 10000 250 open = Ok 0 /\
  let x := 10000 * 250 - 100 * 10000 in
  let p := round_half_away x 100 in
  100 * p - 50 <= x < 100 * p + 50 /\
  (x mod 100 = 0 -> 100 * p = x) /\
  settle 10000 250 won =
    if p <? NUMERIC_10_2_LIMIT then Ok p else Err numeric_field_overflow.
Proof.
  apply (settle_spec 10000 250); [vm_compute; split; reflexivity | lia].
Defined.

Example settle_won_100_at_2_50 : settle 10000 250 won = Ok 15000.
Proof. reflexivity. Qed.

Example settle_lost_50_at_1_80 : settle 5000 180 lost = Ok (- 5000).
Proof. reflexivity. Qed.

Example settle_won_rounds : settle 3333 185 won = Ok 2833.
Proof. reflexivity. Qed.

Example settle_won_overflows :
  settle 9999999999 9999999999 won = Err numeric_field_overflow.
Proof. reflexivity. Qed.

(** ** The reconciler *)

Lemma update_banks_Ok (now : Z) (k : string) (rows : list bet) :
  forall bs bs', update_banks now k rows bs = Ok bs' ->
                 Forall2 (reconciled_row now k rows) bs bs'.
Proof.
  induction bs as [| b rest IH]; intros bs' H; simpl in H.
  - injection H as <-. constructor.
  - bind_inv H. bind_inv H. injection H as <-.
    constructor; [| now apply IH].
    unfold reconciled_row.
    destruct (b_id b =? k)%string.
    + bind_inv Ha. injection Ha as <-.
      apply numeric_10_2_unit_Ok in Ha1. destruct Ha1 as (-> & Hlt).
      now split.
    + now injection Ha as <-.
Qed.

Lemma reconcile_bets (now : Z) (k : string) (d d' : db) :
  reconcile now k d = Ok d' -> bets d' = bets d.
Proof.
  unfold reconcile. intros H. bind_inv H. now injection H as <-.
Qed.

Lemma reconcile_banks (now : Z) (k : string) (d d' : db) :
  reconcile now k d = Ok d' ->
  Forall2 (reconciled_row now k (bets d)) (banks d) (banks d').
Proof.
  unfold reconcile. intros H. bind_inv H. injection H as <-.
  now apply update_banks_Ok.
Qed.

Lemma update_banks_again (now1 now2 : Z) (k : string) (rows : list bet) :
  forall bs bs1,
    Forall2 (reconciled_row now1 k rows) bs bs1 ->
    exists bs2, update_banks now2 k rows bs1 = Ok bs2
                /\ map current_balance bs2 = map current_balance bs1.
Proof.
  induction 1 as [| b b1 rest rest1 Hb _ IH].
  - exists []. now split.
  - destruct IH as (rest2 & E & Hbal). simpl.
    unfold reconciled_row in Hb.
    destruct (b_id b =? k)%string eqn:Hk.
    + destruct Hb as (-> & Hlt). simpl. rewrite Hk.
      rewrite numeric_10_2_unit.
      apply Z.ltb_lt in Hlt. rewrite Hlt. simpl. rewrite E. simpl.
      eexists. split; [reflexivity |]. simpl. now rewrite Hbal.
    + subst b1. rewrite Hk. simpl. rewrite E. simpl.
      eexists. split; [reflexivity |]. simpl. now rewrite Hbal.
Qed.

(** C5: the reconciliation step is idempotent.  When it has run for a bank
    over some wagers, running it again for the same bank over the same wagers
    succeeds and leaves every [current_balance] as the first run set it. *)
Theorem reconcile_idempotent (now1 now2 : Z) (k : string) (d d1 : db) :
  reconcile now1 k d = Ok d1 ->
  exists d2, reconcile now2 k d1 = Ok d2
             /\ map current_balance (banks d2) = map current_balance (banks d1)
             /\ bets d2 = bets d1.
Proof.
  intros H.
  pose proof (reconcile_bets _ _ _ _ H) as Hbets.
  apply reconcile_banks in H.
  destruct (update_banks_again now1 now2 k (bets d) _ _ H) as (bs2 & E & Hbal).
  exists (mk_db bs2 (bets d1)). unfold reconcile.
  rewrite Hbets, E. simpl. now split.
Qed.

Lemma reconcile_idempotent_witness :
  exists d2, reconcile 5 "bank-1" db_2_reconciled = Ok d2
             /\ map current_balance (banks d2)
                = map current_balance (banks db_2_reconciled)
             /\ bets d2 = bets db_2_reconciled.
Proof.
  apply (reconcile_idempotent 4 5 "bank-1" db_2 db_2_reconciled).
  vm_compute. reflexivity.
Defined.

Example reconcile_db_2 :
  balances db_2 = [115000]
  /\ reconcile 4 "bank-1" db_2 = Ok db_2_reconciled
  /\ balances db_2_reconciled = [110000].
Proof. repeat split. Qed.

(** ** The trigger *)

Lemma update_bank_balance_Ok (now : Z) (NEW NEW' : bet) (d d' : db) :
  update_bank_balance now NEW d = Ok (NEW', d') ->
  exists p, settle (amount NEW) (odds NEW) (status NEW) = Ok p
            /\ NEW' = set_profit (Some p) NEW
            /\ reconcile now (bank_id NEW) d = Ok d'.
Proof.
  unfold update_bank_balance. intros H. bind_inv H. bind_inv H.
  injection H as <- <-. now exists a.
Qed.

Lemma update_bank_balance_settled (now : Z) (NEW NEW' : bet) (d d' : db) :
  update_bank_balance now NEW d = Ok (NEW', d') ->
  settled NEW' /\ bets d' = bets d.
Proof.
  intros H. apply update_bank_balance_Ok in H.
  destruct H as (p & Hp & -> & Hr). split.
  - now exists p.
  - eapply reconcile_bets; eassumption.
Qed.

Lemma settled_set_updated_at (now : Z) (b : bet) :
  settled b -> settled (set_updated_at now b).
Proof.
  intros (p & Hp & E). now exists p.
Qed.

(** ** C6: the stored profit *)

Lemma insert_bet_settled (uid : string) (now : Z) (NEW : bet) (d d' : db) :
  Forall settled (bets d) ->
  insert_bet uid now NEW d = Ok d' ->
  Forall settled (bets d').
Proof.
  intros Hd H. unfold insert_bet in H.
  bind_inv H. bind_inv H. bind_inv H. destruct a1 as (NEW' & d1).
  bind_inv H. bind_inv H. bind_inv H. injection H as <-. simpl.
  apply update_bank_balance_settled in Ha1. destruct Ha1 as (HN & ->).
  apply Forall_app. split; [assumption | now constructor].
Qed.

Lemma update_rows_settled (uid : string) (now : Z) (betId : string)
      (p : bet_patch) :
  forall todo done bs d',
    Forall settled done -> Forall settled todo ->
    update_rows uid now betId p done todo bs = Ok d' ->
    Forall settled (bets d').
Proof.
  induction todo as [| r rest IH]; intros done bs d' Hdone Htodo H;
    simpl in H.
  - now injection H as <-.
  - inversion Htodo as [| ? ? Hr Hrest]; subst.
    destruct ((id r =? betId) && (user_id r =? uid))%string.
    + bind_inv H. bind_inv H. bind_inv H. destruct a1 as (NEW' & d1).
      bind_inv H. bind_inv H.
      apply update_bank_balance_settled in Ha1. destruct Ha1 as (HN & _).
      eapply IH; [| eassumption | eassumption].
      apply Forall_app. split; [assumption |].
      constructor; [now apply settled_set_updated_at | constructor].
    + eapply IH; [| eassumption | eassumption].
      apply Forall_app. split; [assumption | now constructor].
Qed.

Lemma filter_settled (f : bet -> bool) (l : list bet) :
  Forall settled l -> Forall settled (filter f l).
Proof.
  intros H. apply Forall_forall. intros x Hx.
  apply filter_In in Hx. destruct Hx as (Hx & _).
  revert x Hx. now apply Forall_forall.
Qed.

Lemma exec_settled (o : op) (d d' : db) :
  Forall settled (bets d) -> exec o d = Ok d' -> Forall settled (bets d').
Proof.
  intros Hd H. destruct o; simpl in H.
  - eapply insert_bet_settled; eassumption.
  - unfold update_bet in H.
    eapply update_rows_settled; [constructor | eassumption | eassumption].
  - unfold delete_bet in H. injection H as <-. simpl.
    now apply filter_settled.
  - unfold insert_bank in H.
    bind_inv H. bind_inv H. bind_inv H. bind_inv H. now injection H as <-.
  - unfold delete_bank in H. injection H as <-. simpl.
    now apply filter_settled.
Qed.

Lemma run_settled (ops : list op) :
  forall d, Forall settled (bets d) -> Forall settled (bets (run ops d)).
Proof.
  induction ops as [| o ops IH]; intros d Hd; simpl.
  - assumption.
  - apply IH. unfold step.
    destruct (exec o d) as [d' |] eqn:E; [| assumption].
    eapply exec_settled; eassumption.
Qed.

(** C6: in every database reached from the empty one by inserts, updates and
    deletes, issued by any callers with any rows and any [SET] lists (a
    [profit] of the caller's choice included), every stored wager has a
    non-null [profit], and it is the result of the settlement function on the
    stored [amount], [odds] and [status]. *)
Theorem profit_is_settlement (ops : list op) (b : bet) :
  In b (bets (run ops empty_db)) ->
  exists p, settle (amount b) (odds b) (status b) = Ok p
            /\ profit b = Some p.
Proof.
  intros Hb.
  assert (H : Forall settled (bets (run ops empty_db)))
    by (apply run_settled; constructor).
  rewrite Forall_forall in H. exact (H b Hb).
Qed.

Lemma profit_is_settlement_witness :
  exists p, settle (amount wager_1_reopened) (odds wager_1_reopened)
                   (status wager_1_reopened) = Ok p
            /\ profit wager_1_reopened = Some p.
Proof.
  apply (profit_is_settlement
           [op_insert_bank "alice" bank_1;
            op_insert_bet "alice" 1 wager_1;
            op_update_bet "alice" 3 "w1"
              (mk_patch None None None (Some open) None (Some (Some 99900))
                        None)]
           wager_1_reopened).
  vm_compute. left. reflexivity.
Defined.

(** ** C1, C2: the balance after a write *)

(** The table the trigger sums over is the table before the write: a
    successful insert appends the settled row, and each bank of that row is
    reconciled against the rows that were there before. *)
Lemma insert_bet_Ok (uid : string) (now : Z) (NEW : bet) (d d' : db) :
  insert_bet uid now NEW d = Ok d' ->
  exists p, settle (amount NEW) (odds NEW) (status NEW) = Ok p
            /\ bets d' = (bets d ++ [set_profit (Some p) NEW])%list
            /\ Forall2 (reconciled_row now (bank_id NEW) (bets d))
                       (banks d) (banks d').
Proof.
  intros H. unfold insert_bet in H.
  bind_inv H. bind_inv H. bind_inv H. destruct a1 as (NEW' & d1).
  bind_inv H. bind_inv H. bind_inv H. injection H as <-. simpl.
  apply update_bank_balance_Ok in Ha1. destruct Ha1 as (p & Hp & -> & Hr).
  exists p. split; [assumption | split].
  - now rewrite (reconcile_bets _ _ _ _ Hr).
  - now apply reconcile_banks.
Qed.

Lemma balance_invariantb_spec (d : db) :
  balance_invariantb d = true <-> balance_invariant d.
Proof.
  unfold balance_invariantb, balance_invariant.
  rewrite forallb_forall. split; intros H k Hk.
  - now apply Z.eqb_eq, H.
  - now apply Z.eqb_eq, H.
Qed.

(** C1 at a failing input: the bank of 1000.00 with no wager satisfies the
    invariant; after the insert of a wager of 100.00 at 2.50, won, the wager
    is stored with profit 150.00 and the balance is still 1000.00, so the
    invariant no longer holds. *)
Theorem insert_breaks_balance_invariant :
  balance_invariant db_0 /\
  exists d', insert_bet "alice" 1 wager_1 db_0 = Ok d'
             /\ profits d' = [Some 15000]
             /\ balances d' = [100000]
             /\ ~ balance_invariant d'.
Proof.
  split.
  - apply balance_invariantb_spec. reflexivity.
  - eexists. split; [vm_compute; reflexivity |].
    split; [reflexivity | split; [reflexivity |]].
    intros H. apply balance_invariantb_spec in H. discriminate H.
Qed.

(** C2 at the scenario of the specification, through the pages: the profits
    are 150.00 and -50.00 as stated, and the balances after the three writes
    are 1000.00, 1150.00 and 1100.00, each one write behind the stated
    1150.00, 1100.00 and 1050.00. *)
Theorem scenario_balances_lag :
  exists d1 d2 d3,
    handleSubmit (Some "alice") 1 "w1" form_1 db_0 = (toast_registered, d1)
    /\ profits d1 = [Some 15000] /\ balances d1 = [100000]
    /\ handleSubmit (Some "alice") 2 "w2" form_2 d1 = (toast_registered, d2)
    /\ profits d2 = [Some 15000; Some (-5000)] /\ balances d2 = [115000]
    /\ updateBetStatus "alice" 3 "w1" open d2 = Ok d3
    /\ profits d3 = [Some 0; Some (-5000)] /\ balances d3 = [110000].
Proof.
  do 3 eexists.
  split; [vm_compute; reflexivity |].
  split; [reflexivity | split; [reflexivity |]].
  split; [vm_compute; reflexivity |].
  split; [reflexivity | split; [reflexivity |]].
  split; [vm_compute; reflexivity |].
  split; reflexivity.
Qed.

(** ** C4: deleting a wager *)

(** C4 at a failing input: with the won wager of profit 150.00 and an open
    wager stored, the balance is 1150.00 and the invariant holds; deleting the
    won wager succeeds and leaves the balance at 1150.00, while the wagers
    that remain give 1000.00: the profit of the deleted wager is still in the
    balance. *)
Theorem delete_bet_keeps_stale_balance :
  let d := run [op_insert_bet "alice" 1 wager_1;
                op_insert_bet "alice" 3 wager_3] db_0 in
  balance_invariant d /\ balances d = [115000]
  /\ exists d', delete_bet "alice" "w1" d = Ok d'
                /\ map id (bets d') = ["w3"]
                /\ balances d' = [115000]
                /\ map (fun k => initial_balance k
                                 + settled_profit (b_id k) (bets d'))
                       (banks d') = [100000]
                /\ ~ balance_invariant d'.
Proof.
  split; [apply balance_invariantb_spec; reflexivity |].
  split; [reflexivity |].
  eexists. split; [vm_compute; reflexivity |].
  split; [reflexivity | split; [reflexivity | split; [reflexivity |]]].
  intros H. apply balance_invariantb_spec in H. discriminate H.
Qed.

Lemma delete_bet_In (uid betId : string) (d : db) (r : bet) :
  In r (filter (fun r => negb ((id r =? betId) && (user_id r =? uid))%string)
               (bets d)) <->
  In r (bets d) /\ ~ (id r = betId /\ user_id r = uid).
Proof.
  rewrite filter_In.
  rewrite negb_true_iff, andb_false_iff, !String.eqb_neq.
  split; intros (Hin & H); (split; [assumption |]).
  - intros (E1 & E2). destruct H; contradiction.
  - destruct (String.eqb_spec (id r) betId) as [E | E]; [| now left].
    right. intros E2. apply H. now split.
Qed.

(** What the delete does on any database: it succeeds, removes the rows with
    that identifier that the caller owns, and does not touch the table of
    banks, since no trigger is declared for it. *)
Lemma delete_bet_no_reconcile (uid betId : string) (d : db) :
  exists d', delete_bet uid betId d = Ok d'
             /\ banks d' = banks d
             /\ forall r, In r (bets d') <->
                          In r (bets d) /\ ~ (id r = betId /\ user_id r = uid).
Proof.
  eexists. split; [reflexivity | split; [reflexivity |]].
  intros r. apply delete_bet_In.
Qed.

(** ** C8: validation of a new wager *)

Lemma num_le_true (x : number) (c : Q) :
  num_le x c = true <-> exists q, x = Finite q /\ (q <= c)%Q.
Proof.
  destruct x as [| q]; simpl.
  - split; [discriminate | intros (q & E & _); discriminate].
  - rewrite Qle_bool_iff. split.
    + intros H. now exists q.
    + intros (q' & [= <-] & H). exact H.
Qed.

Lemma num_lt_true (x : number) (c : Q) :
  num_lt x c = true <-> exists q, x = Finite q /\ (q < c)%Q.
Proof.
  destruct x as [| q]; simpl.
  - split; [discriminate | intros (q & E & _); discriminate].
  - rewrite negb_true_iff, <- not_true_iff_false, Qle_bool_iff. split.
    + intros H. exists q. split; [reflexivity | now apply Qnot_le_lt].
    + intros (q' & [= <-] & H). now apply Qlt_not_le.
Qed.

Lemma isNaN_true (x : number) : isNaN x = true <-> x = NaN.
Proof.
  destruct x; simpl; split; congruence.
Qed.

(** C8: a new wager whose stake is at most 0, or whose odds are below 1, or
    for which no bank is selected is rejected by a toast that names a
    constraint the form violates, and the database (wagers and banks) is
    the one before the call. *)
Theorem handleSubmit_rejects (session : option string) (now : Z)
        (new_id : string) (f : new_bet_form) (d : db) :
  (exists q, betAmount f = Finite q /\ (q <= 0)%Q)
  \/ (exists q, betOdds f = Finite q /\ (q < 1)%Q)
  \/ bankId f = EmptyString ->
  exists t, handleSubmit session now new_id f d = (t, d) /\ violates f t.
Proof.
  intros H. unfold handleSubmit.
  destruct (isNaN (betAmount f) || num_le (betAmount f) 0) eqn:E1.
  { eexists. split; [reflexivity |]. apply violates_amount.
    apply orb_true_iff in E1. destruct E1 as [E1 | E1].
    - left. now apply isNaN_true.
    - right. now apply num_le_true. }
  destruct (isNaN (betOdds f) || num_lt (betOdds f) 1) eqn:E2.
  { eexists. split; [reflexivity |]. apply violates_odds.
    apply orb_true_iff in E2. destruct E2 as [E2 | E2].
    - left. now apply isNaN_true.
    - right. now apply num_lt_true. }
  destruct (bankId f =? EmptyString)%string eqn:E3.
  { eexists. split; [reflexivity |]. apply violates_bank.
    now apply String.eqb_eq. }
  exfalso. apply orb_false_iff in E1, E2.
  destruct H as [H | [H | H]].
  - apply num_le_true in H. destruct E1 as (_ & E1). congruence.
  - apply num_lt_true in H. destruct E2 as (_ & E2). congruence.
  - apply String.eqb_eq in H. congruence.
Qed.

Lemma handleSubmit_rejects_witness :
  exists t, handleSubmit (Some "alice") 1 "w1" form_zero_stake db_0
            = (t, db_0)
            /\ violates form_zero_stake t.
Proof.
  apply (handleSubmit_rejects (Some "alice") 1 "w1" form_zero_stake db_0).
  left. exists 0%Q. split; [reflexivity | vm_compute; discriminate].
Defined.

(** ** C9: owners *)

Lemma select_bets_own (uid : string) (d : db) (r : bet) :
  In r (select_bets uid d) -> user_id r = uid.
Proof.
  unfold select_bets. rewrite filter_In. intros (_ & H).
  now apply String.eqb_eq.
Qed.

Lemma select_banks_own (uid : string) (d : db) (k : bank) :
  In k (select_banks uid d) -> b_user_id k = uid.
Proof.
  unfold select_banks. rewrite filter_In. intros (_ & H).
  now apply String.eqb_eq.
Qed.

Lemma delete_bet_others (uid betId : string) (d d' : db) (r : bet) :
  delete_bet uid betId d = Ok d' ->
  user_id r <> uid -> (In r (bets d') <-> In r (bets d)).
Proof.
  unfold delete_bet. intros [= <-] Hr. simpl.
  rewrite delete_bet_In. tauto.
Qed.

Lemma update_rows_others (uid : string) (now : Z) (betId : string)
      (p : bet_patch) (f : bet -> bool) :
  (forall r, f r = true -> user_id r <> uid) ->
  forall todo done bs d',
    update_rows uid now betId p done todo bs = Ok d' ->
    filter f (bets d') = filter f (done ++ todo).
Proof.
  intros Hf. induction todo as [| r rest IH]; intros done bs d' H;
    simpl in H.
  - injection H as <-. simpl. now rewrite app_nil_r.
  - destruct ((id r =? betId) && (user_id r =? uid))%string eqn:E.
    + bind_inv H. bind_inv H. bind_inv H. destruct a1 as (NEW' & d1).
      bind_inv H. bind_inv H.
      apply IH in H. rewrite H.
      rewrite <- !app_assoc, !filter_app. f_equal. simpl.
      apply andb_true_iff in E. destruct E as (_ & E).
      apply String.eqb_eq in E.
      apply guard_Ok, String.eqb_eq in Ha2.
      destruct (f (set_updated_at now NEW')) eqn:F1;
        [apply Hf in F1; contradiction |].
      destruct (f r) eqn:F2; [apply Hf in F2; contradiction |].
      reflexivity.
    + apply IH in H. rewrite H. now rewrite <- app_assoc.
Qed.

(** An update changes no row of another owner. *)
Lemma update_bet_others (uid other : string) (now : Z) (betId : string)
      (p : bet_patch) (d d' : db) :
  other <> uid ->
  update_bet uid now betId p d = Ok d' ->
  select_bets other d' = select_bets other d.
Proof.
  intros Hne H. unfold update_bet in H. unfold select_bets.
  apply (update_rows_others uid now betId p
           (fun r => (user_id r =? other)%string)) in H.
  - exact H.
  - intros r Hr. apply String.eqb_eq in Hr. congruence.
Qed.

(** C9 at a failing input: mallory sees no bank, and files two won wagers
    of her own under the identifier of alice's bank.  Both inserts succeed;
    the second leaves alice's bank, which mallory does not own, with a
    balance of 1150.00 instead of 1000.00, and alice sees none of the wagers
    that changed it. *)
Theorem insert_under_foreign_bank :
  select_banks "mallory" db_0 = []
  /\ map b_user_id (banks db_0) = ["alice"]
  /\ balances db_0 = [100000]
  /\ exists d1 d2,
       insert_bet "mallory" 1 intruder_1 db_0 = Ok d1
       /\ insert_bet "mallory" 2 intruder_2 d1 = Ok d2
       /\ map b_user_id (banks d2) = ["alice"]
       /\ balances d2 = [115000]
       /\ map user_id (bets d2) = ["mallory"; "mallory"]
       /\ select_bets "alice" d2 = [].
Proof.
  split; [reflexivity | split; [reflexivity | split; [reflexivity |]]].
  do 2 eexists.
  split; [vm_compute; reflexivity |].
  split; [vm_compute; reflexivity |].
  repeat split.
Qed.

(** ** C10: the daily aggregates *)

(** ** C10: the daily aggregates *)

Lemma Zlength_append {A : Type} (l1 l2 : list A) :
  Zlength (l1 ++ l2) = Zlength l1 + Zlength l2.
Proof.
  induction l1 as [| a rest IH]; simpl app.
  - rewrite Zlength_nil. lia.
  - rewrite !Zlength_cons, IH. lia.
Qed.

Lemma daily_fold_spec (l : list bet) :
  forall acc,
    fold_left daily_step l acc =
    mk_stats (total_bets acc + Zlength l)
             (total_won acc + count_status won l)
             (total_lost acc + count_status lost l)
             (net_profit acc + sum_contributions l).
Proof.
  induction l as [| b rest IH]; intros acc.
  - simpl. rewrite Zlength_nil. destruct acc; simpl. f_equal; lia.
  - simpl fold_left. rewrite IH. rewrite Zlength_cons.
    unfold daily_step, contribution.
    cbn -[Z.add]. unfold contribution.
    destruct (status b); cbn -[Z.add]; f_equal; lia.
Qed.

Lemma summary_fold_spec (l : list bet) :
  forall acc,
    fold_left summary_step l acc =
    mk_summary (total acc + Zlength l)
               (s_won acc + count_status won l)
               (s_lost acc + count_status lost l)
               (s_profit acc + sum_contributions l)
               (wagered acc + sum_amounts l).
Proof.
  induction l as [| b rest IH]; intros acc.
  - simpl. rewrite Zlength_nil. destruct acc; simpl. f_equal; lia.
  - simpl fold_left. rewrite IH. rewrite Zlength_cons.
    unfold summary_step, contribution.
    cbn -[Z.add]. unfold contribution.
    destruct (status b); cbn -[Z.add]; f_equal; lia.
Qed.

Lemma count_status_app (s : bet_status) (l1 l2 : list bet) :
  count_status s (l1 ++ l2) = count_status s l1 + count_status s l2.
Proof.
  induction l1 as [| b rest IH]; cbn -[Z.add]; [reflexivity | rewrite IH; lia].
Qed.

Lemma sum_contributions_app (l1 l2 : list bet) :
  sum_contributions (l1 ++ l2) = sum_contributions l1 + sum_contributions l2.
Proof.
  induction l1 as [| b rest IH]; cbn -[Z.add]; [reflexivity | rewrite IH; lia].
Qed.

(** C10: in both daily aggregates (the one of the dashboard and the one of
    the daily page), a wager that is won or lost and whose profit is NULL
    adds 0 to the net profit, and an open wager adds 1 to the total count and
    nothing to the won count, the lost count and the net profit. *)
Theorem daily_aggregate_null_and_open (l1 l2 : list bet) (b : bet) :
  (status b <> open -> profit b = None ->
   net_profit (daily_reduce (l1 ++ b :: l2))
   = net_profit (daily_reduce (l1 ++ l2))
   /\ s_profit (calculateDailySummary (l1 ++ b :: l2))
      = s_profit (calculateDailySummary (l1 ++ l2)))
  /\ (status b = open ->
      let s := daily_reduce (l1 ++ b :: l2) in
      let s0 := daily_reduce (l1 ++ l2) in
      let c := calculateDailySummary (l1 ++ b :: l2) in
      let c0 := calculateDailySummary (l1 ++ l2) in
      total_bets s = total_bets s0 + 1
      /\ total_won s = total_won s0
      /\ total_lost s = total_lost s0
      /\ net_profit s = net_profit s0
      /\ total c = total c0 + 1
      /\ s_won c = s_won c0
      /\ s_lost c = s_lost c0
      /\ s_profit c = s_profit c0).
Proof.
  unfold daily_reduce, calculateDailySummary.
  rewrite !daily_fold_spec, !summary_fold_spec.
  cbn -[Z.add count_status sum_contributions Zlength].
  rewrite !Zlength_append, Zlength_cons, !count_status_app,
    !sum_contributions_app.
  cbn -[Z.add]. unfold contribution. split.
  - intros Hs Hp. rewrite Hp.
    destruct (status b); cbn -[Z.add]; split; lia.
  - intros Hs. rewrite Hs. cbn -[Z.add]. repeat split; lia.
Qed.

Lemma daily_aggregate_null_and_open_witness :
  (net_profit (daily_reduce ([wager_1_reopened] ++ wager_null :: [wager_open]))
   = net_profit (daily_reduce ([wager_1_reopened] ++ [wager_open]))
   /\ s_profit (calculateDailySummary
                  ([wager_1_reopened] ++ wager_null :: [wager_open]))
      = s_profit (calculateDailySummary ([wager_1_reopened] ++ [wager_open])))
  /\ total_bets (daily_reduce ([wager_null] ++ wager_open :: []))
     = total_bets (daily_reduce ([wager_null] ++ [])) + 1.
Proof.
  split.
  - apply (proj1 (daily_aggregate_null_and_open
                    [wager_1_reopened] [wager_open] wager_null)).
    + discriminate.
    + reflexivity.
  - apply (proj2 (daily_aggregate_null_and_open [wager_null] [] wager_open)).
    reflexivity.
Defined.

(** ** C7: the history page *)

Lemma history_before_true (tie : tie_order) (a b : bet) :
  history_before tie a b = true -> history_order a b.
Proof.
  unfold history_before, history_order.
  rewrite !orb_true_iff, !andb_true_iff, !Z.ltb_lt, !Z.eqb_eq.
  lia.
Qed.

Lemma history_before_false (tie : tie_order) (a b : bet) :
  history_before tie a b = false -> history_order b a.
Proof.
  unfold history_before, history_order.
  rewrite !orb_false_iff, !andb_false_iff, !Z.ltb_ge, !Z.eqb_neq.
  lia.
Qed.

Lemma history_order_trans (a b c : bet) :
  history_order a b -> history_order b c -> history_order a c.
Proof.
  unfold history_order. lia.
Qed.

Lemma insert_sorted_perm (tie : tie_order) (x : bet) (l : list bet) :
  Permutation (x :: l) (insert_sorted tie x l).
Proof.
  induction l as [| y rest IH]; simpl.
  - reflexivity.
  - destruct (history_before tie x y).
    + reflexivity.
    + rewrite perm_swap. now apply perm_skip.
Qed.

Lemma order_by_history_perm (tie : tie_order) (l : list bet) :
  Permutation l (order_by_history tie l).
Proof.
  induction l as [| x rest IH]; simpl.
  - reflexivity.
  - rewrite <- insert_sorted_perm. now apply perm_skip.
Qed.

Lemma insert_sorted_sorted (tie : tie_order) (x : bet) (l : list bet) :
  StronglySorted history_order l ->
  StronglySorted history_order (insert_sorted tie x l).
Proof.
  induction 1 as [| y rest Hs IH Hy]; simpl.
  - repeat constructor.
  - destruct (history_before tie x y) eqn:E.
    + apply history_before_true in E.
      constructor; [now constructor |].
      constructor; [assumption |].
      eapply Forall_impl; [| exact Hy].
      intros z Hz. eapply history_order_trans; eassumption.
    + apply history_before_false in E.
      constructor; [assumption |].
      eapply Permutation_Forall; [apply insert_sorted_perm |].
      now constructor.
Qed.

Lemma order_by_history_sorted (tie : tie_order) (l : list bet) :
  StronglySorted history_order (order_by_history tie l).
Proof.
  induction l as [| x rest IH]; simpl.
  - constructor.
  - now apply insert_sorted_sorted.
Qed.

Lemma StronglySorted_skipn {A : Type} (R : A -> A -> Prop) (n : nat) :
  forall l, StronglySorted R l -> StronglySorted R (skipn n l).
Proof.
  induction n as [| n IH]; intros l H; simpl.
  - assumption.
  - destruct l as [| x rest]; [constructor |].
    apply IH. now inversion H.
Qed.

Lemma StronglySorted_firstn {A : Type} (R : A -> A -> Prop) (n : nat) :
  forall l, StronglySorted R l -> StronglySorted R (firstn n l).
Proof.
  induction n as [| n IH]; intros l H; simpl.
  - constructor.
  - destruct l as [| x rest]; [constructor |].
    inversion H as [| ? ? Hs Hx]; subst.
    constructor; [now apply IH |].
    apply Forall_forall. intros y Hy.
    rewrite Forall_forall in Hx. apply Hx.
    rewrite <- (firstn_skipn n rest). apply in_or_app. now left.
Qed.

Lemma totalPages_spec (T p : Z) :
  p <= totalPages T <-> 10 * (p - 1) < T.
Proof.
  unfold totalPages, ITEMS_PER_PAGE.
  pose proof (Z.div_mod (T + 10 - 1) 10 ltac:(lia)) as E.
  pose proof (Z.mod_pos_bound (T + 10 - 1) 10 ltac:(lia)) as B.
  lia.
Qed.

Lemma history_wantedb_spec (uid selectedBank : string)
      (statusFilter : option bet_status) (r : bet) :
  history_wantedb uid selectedBank statusFilter r = true
  <-> history_wanted uid selectedBank statusFilter r.
Proof.
  unfold history_wantedb, history_wanted.
  rewrite !andb_true_iff, !String.eqb_eq. split.
  - intros ((Hu & Hb) & Hs). split; [assumption | split; [assumption |]].
    intros s ->. now destruct (status r), s.
  - intros (Hu & Hb & Hs). split; [now split |].
    destruct statusFilter as [s |]; [| reflexivity].
    rewrite (Hs s eq_refl). now destruct s.
Qed.

Lemma filter_filter {A : Type} (f g : A -> bool) (l : list A) :
  filter g (filter f l) = filter (fun x => f x && g x) l.
Proof.
  induction l as [| x rest IH]; simpl; [reflexivity |].
  destruct (f x); simpl; [destruct (g x) |]; now rewrite IH.
Qed.

(** The chain of [.eq] of [fetchBets], run under the policy of [bets],
    selects from the stored table exactly the wagers the request is about. *)
Lemma history_matching_wanted (uid : string) (d : db) (selectedBank : string)
      (statusFilter : option bet_status) :
  history_matching uid d selectedBank statusFilter
  = filter (history_wantedb uid selectedBank statusFilter) (bets d).
Proof.
  unfold history_matching, select_bets, history_wantedb.
  destruct statusFilter as [s |]; rewrite !filter_filter;
    apply filter_ext; intros r.
  - now rewrite andb_assoc.
  - now rewrite andb_true_r.
Qed.

(** C7: take the stored wagers of the caller, of the selected bank and of the
    selected outcome (all outcomes when the filter is "all"), and let [T] be
    their number.  For a page [p >= 1], and however the query orders wagers
    with equal keys, [fetchBets] gives the count [T] and the [p]-th window of
    10 of a list that holds exactly those wagers ordered by settlement date
    descending, then creation timestamp descending; the window has
    [min 10 (T - 10 * (p - 1))] wagers, and none when [p] exceeds
    [ceil (T / 10)]. *)
Theorem fetchBets_page (tie : tie_order) (uid : string) (d : db)
        (selectedBank : string) (statusFilter : option bet_status) (p : Z) :
  1 <= p ->
  let wanted := filter (history_wantedb uid selectedBank statusFilter)
                       (bets d) in
  let T := Z.of_nat (List.length wanted) in
  let items := fst (fetchBets tie uid d selectedBank statusFilter p) in
  (forall r, In r wanted <->
             In r (bets d) /\ user_id r = uid /\ bank_id r = selectedBank
             /\ forall s, statusFilter = Some s -> status r = s)
  /\ snd (fetchBets tie uid d selectedBank statusFilter p) = T
  /\ Z.of_nat (List.length items)
     = (if p <=? totalPages T then Z.min 10 (T - 10 * (p - 1)) else 0)
  /\ StronglySorted history_order items
  /\ exists ordered,
       Permutation wanted ordered
       /\ StronglySorted history_order ordered
       /\ items = firstn 10 (skipn (Z.to_nat (10 * (p - 1))) ordered).
Proof.
  intros Hp wanted T items.
  assert (Hm : history_matching uid d selectedBank statusFilter = wanted)
    by apply history_matching_wanted.
  assert (Hitems : items = firstn 10 (skipn (Z.to_nat (10 * (p - 1)))
                                            (order_by_history tie wanted))).
  { subst items. unfold fetchBets, range, ITEMS_PER_PAGE. simpl fst.
    rewrite Hm.
    replace (Z.to_nat (p * 10 - 1 - (p - 1) * 10 + 1)) with 10%nat by lia.
    now replace ((p - 1) * 10) with (10 * (p - 1)) by lia. }
  split; [| split; [| split; [| split]]].
  - intros r. subst wanted. rewrite filter_In, history_wantedb_spec.
    reflexivity.
  - unfold fetchBets. simpl snd. now rewrite Hm.
  - rewrite Hitems, length_firstn, length_skipn.
    rewrite <- (Permutation_length (order_by_history_perm tie wanted)).
    fold T.
    destruct (p <=? totalPages T) eqn:E.
    + apply Z.leb_le, totalPages_spec in E. lia.
    + apply Z.leb_gt in E.
      assert (~ 10 * (p - 1) < T) by (rewrite <- totalPages_spec; lia). lia.
  - rewrite Hitems.
    apply StronglySorted_firstn, StronglySorted_skipn,
      order_by_history_sorted.
  - exists (order_by_history tie wanted).
    split; [apply order_by_history_perm |].
    split; [apply order_by_history_sorted | exact Hitems].
Qed.

Lemma fetchBets_page_witness :
  let wanted := filter (history_wantedb "alice" "bank-1" None)
                       (bets db_25) in
  let T := Z.of_nat (List.length wanted) in
  let items := fst (fetchBets table_order "alice" db_25 "bank-1" None 3) in
  (forall r, In r wanted <->
             In r (bets db_25) /\ user_id r = "alice" /\ bank_id r = "bank-1"
             /\ forall s, @None bet_status = Some s -> status r = s)
  /\ snd (fetchBets table_order "alice" db_25 "bank-1" None 3) = T
  /\ Z.of_nat (List.length items)
     = (if 3 <=? totalPages T then Z.min 10 (T - 10 * (3 - 1)) else 0)
  /\ StronglySorted history_order items
  /\ exists ordered,
       Permutation wanted ordered
       /\ StronglySorted history_order ordered
       /\ items = firstn 10 (skipn (Z.to_nat (10 * (3 - 1))) ordered).
Proof.
  apply (fetchBets_page table_order "alice" db_25 "bank-1" None 3). lia.
Defined.

(** The history of the three wagers: newest first on page 1, nothing on
    page 2, only the lost wager under the filter "lost", the open wager under
    "open" and all three under "all", and nothing for another caller. *)
Example fetchBets_page_1 :
  let r := fetchBets table_order "alice" db_3 "bank-1" None 1 in
  map id (fst r) = ["w3"; "w2"; "w1"] /\ snd r = 3.
Proof. split; reflexivity. Qed.

Example fetchBets_page_2 :
  fetchBets table_order "alice" db_3 "bank-1" None 2 = ([], 3).
Proof. reflexivity. Qed.

Example fetchBets_lost :
  let r := fetchBets table_order "alice" db_3 "bank-1" (Some lost) 1 in
  map id (fst r) = ["w2"] /\ snd r = 1.
Proof. split; reflexivity. Qed.

Example fetchBets_open :
  let r := fetchBets table_order "alice" db_3 "bank-1" (Some open) 1 in
  map id (fst r) = ["w3"] /\ snd r = 1.
Proof. split; reflexivity. Qed.

Example fetchBets_other_caller :
  fetchBets table_order "mallory" db_3 "bank-1" None 1 = ([], 0).
Proof. reflexivity. Qed.

(** The third page of twenty-five wagers holds the five oldest, newest
    first. *)
Example fetchBets_db_25_page_3 :
  let r := fetchBets table_order "alice" db_25 "bank-1" None 3 in
  map id (fst r) = ["E"; "D"; "C"; "B"; "A"] /\ snd r = 25.
Proof. split; reflexivity. Qed.

(** * Further properties *)

(** ** The reconciler: postcondition, missing bank, overflow *)

Lemma Forall2_In_right {A B : Type} (R : A -> B -> Prop) (l : list A)
      (l' : list B) (y : B) :
  Forall2 R l l' -> In y l' -> exists x, In x l /\ R x y.
Proof.
  induction 1 as [| a b rest rest' Hab _ IH]; intros Hy.
  - contradiction.
  - destruct Hy as [<- | Hy].
    + exists a. split; [now left | assumption].
    + destruct (IH Hy) as (x & Hx & Hr). exists x. split; [now right | easy].
Qed.

Lemma Forall2_In_left {A B : Type} (R : A -> B -> Prop) (l : list A)
      (l' : list B) (x : A) :
  Forall2 R l l' -> In x l -> exists y, In y l' /\ R x y.
Proof.
  induction 1 as [| a b rest rest' Hab _ IH]; intros Hx.
  - contradiction.
  - destruct Hx as [<- | Hx].
    + exists b. split; [now left | assumption].
    + destruct (IH Hx) as (y & Hy & Hr). exists y. split; [now right | easy].
Qed.

Lemma reconciled_row_keeps (now : Z) (k : string) (rows : list bet)
      (b b' : bank) :
  reconciled_row now k rows b b' ->
  b_id b' = b_id b /\ initial_balance b' = initial_balance b
  /\ b_user_id b' = b_user_id b.
Proof.
  unfold reconciled_row. destruct (b_id b =? k)%string.
  - intros (-> & _). now repeat split.
  - intros ->. now repeat split.
Qed.

Lemma reconciled_rows_keep (now : Z) (k : string) (rows : list bet)
      (bs bs' : list bank) :
  Forall2 (reconciled_row now k rows) bs bs' ->
  map b_id bs' = map b_id bs
  /\ map initial_balance bs' = map initial_balance bs.
Proof.
  induction 1 as [| b b' rest rest' Hb _ (IH1 & IH2)]; simpl.
  - now split.
  - apply reconciled_row_keeps in Hb. destruct Hb as (E1 & E2 & _).
    now rewrite E1, E2, IH1, IH2.
Qed.

(** The reconciler, when it succeeds for the bank [k], leaves the wagers, the
    identifiers and the initial balances as they were, leaves every bank with
    another identifier untouched, and sets the balance of [k] to its initial
    balance plus the profits of its wagers that are not open. *)
Theorem reconcile_postcondition (now : Z) (k : string) (d d' : db) :
  reconcile now k d = Ok d' ->
  bets d' = bets d
  /\ map b_id (banks d') = map b_id (banks d)
  /\ map initial_balance (banks d') = map initial_balance (banks d)
  /\ (forall b, In b (banks d') -> b_id b = k ->
                current_balance b
                = initial_balance b + settled_profit k (bets d'))
  /\ (forall b, b_id b <> k -> (In b (banks d') <-> In b (banks d))).
Proof.
  intros H. pose proof (reconcile_bets _ _ _ _ H) as Hbets.
  apply reconcile_banks in H.
  destruct (reconciled_rows_keep _ _ _ _ _ H) as (Hid & Hinit).
  split; [assumption | split; [assumption | split; [assumption | split]]].
  - intros b' Hb' Hk.
    destruct (Forall2_In_right _ _ _ _ H Hb') as (b & Hb & Hr).
    pose proof (reconciled_row_keeps _ _ _ _ _ Hr) as (E & _).
    unfold reconciled_row in Hr. rewrite <- E, Hk, String.eqb_refl in Hr.
    destruct Hr as (-> & _). simpl. now rewrite Hbets.
  - intros b Hk. split; intros Hb.
    + destruct (Forall2_In_right _ _ _ _ H Hb) as (b0 & Hb0 & Hr).
      pose proof (reconciled_row_keeps _ _ _ _ _ Hr) as (E & _).
      unfold reconciled_row in Hr.
      destruct (String.eqb_spec (b_id b0) k) as [E0 | E0];
        [congruence | now subst].
    + destruct (Forall2_In_left _ _ _ _ H Hb) as (b1 & Hb1 & Hr).
      unfold reconciled_row in Hr.
      destruct (String.eqb_spec (b_id b) k) as [E0 | E0];
        [contradiction | now subst].
Qed.

Lemma reconcile_postcondition_witness :
  bets db_2_reconciled = bets db_2
  /\ map b_id (banks db_2_reconciled) = map b_id (banks db_2)
  /\ map initial_balance (banks db_2_reconciled)
     = map initial_balance (banks db_2)
  /\ (forall b, In b (banks db_2_reconciled) -> b_id b = "bank-1" ->
                current_balance b
                = initial_balance b
                  + settled_profit "bank-1" (bets db_2_reconciled))
  /\ (forall b, b_id b <> "bank-1" ->
                (In b (banks db_2_reconciled) <-> In b (banks db_2))).
Proof.
  apply (reconcile_postcondition 4 "bank-1" db_2 db_2_reconciled).
  vm_compute. reflexivity.
Defined.

Lemma update_banks_absent (now : Z) (k : string) (rows : list bet) :
  forall bs, bank_exists k bs = false -> update_banks now k rows bs = Ok bs.
Proof.
  induction bs as [| b rest IH]; simpl; intros H.
  - reflexivity.
  - apply orb_false_iff in H. destruct H as (H1 & H2).
    rewrite H1. simpl. now rewrite (IH H2).
Qed.

(** Reconciling a bank that does not exist succeeds and changes nothing. *)
Theorem reconcile_missing_bank (now : Z) (k : string) (d : db) :
  bank_exists k (banks d) = false -> reconcile now k d = Ok d.
Proof.
  intros H. unfold reconcile.
  rewrite (update_banks_absent now k (bets d) _ H). simpl. now destruct d.
Qed.

Lemma reconcile_missing_bank_witness : reconcile 4 "bank-2" db_2 = Ok db_2.
Proof.
  apply (reconcile_missing_bank 4 "bank-2" db_2). reflexivity.
Defined.

Lemma update_banks_Err (now : Z) (k : string) (rows : list bet) (e : error) :
  forall bs,
    update_banks now k rows bs = Err e ->
    e = numeric_field_overflow
    /\ exists b, In b bs /\ b_id b = k
                 /\ NUMERIC_10_2_LIMIT
                    <= Z.abs (initial_balance b + settled_profit k rows).
Proof.
  induction bs as [| b rest IH]; simpl; intros H.
  - discriminate.
  - destruct (String.eqb_spec (b_id b) k) as [E | E].
    + rewrite numeric_10_2_unit in H.
      destruct (Z.ltb_spec
                  (Z.abs (initial_balance b + settled_profit k rows))
                  NUMERIC_10_2_LIMIT) as [L | L]; simpl in H.
      * destruct (update_banks now k rows rest) as [r |] eqn:R; simpl in H;
          [discriminate |].
        injection H as <-. destruct (IH eq_refl) as (He & x & Hx & Hk & Hl).
        split; [assumption |]. exists x. split; [now right | now split].
      * injection H as <-. split; [reflexivity |].
        exists b. split; [now left | now split].
    + simpl in H.
      destruct (update_banks now k rows rest) as [r |] eqn:R; simpl in H;
        [discriminate |].
      injection H as <-. destruct (IH eq_refl) as (He & x & Hx & Hk & Hl).
      split; [assumption |]. exists x. split; [now right | now split].
Qed.

Lemma update_banks_overflow (now : Z) (k : string) (rows : list bet) :
  forall bs,
    (exists b, In b bs /\ b_id b = k
               /\ NUMERIC_10_2_LIMIT
                  <= Z.abs (initial_balance b + settled_profit k rows)) ->
    update_banks now k rows bs = Err numeric_field_overflow.
Proof.
  induction bs as [| b rest IH]; intros (x & Hx & Hk & Hl).
  - contradiction.
  - destruct (update_banks now k rows (b :: rest)) as [r | e] eqn:R.
    + exfalso. apply update_banks_Ok in R.
      destruct (Forall2_In_left _ _ _ _ R Hx) as (y & _ & Hr).
      unfold reconciled_row in Hr. rewrite Hk, String.eqb_refl in Hr.
      destruct Hr as (_ & Hr). lia.
    + apply update_banks_Err in R. destruct R as (-> & _). reflexivity.
Qed.

(** The reconciler raises no error but a numeric overflow, and raises it
    exactly when a bank with the identifier has an initial balance plus
    settled profits of 10^8 or more in absolute value. *)
Theorem reconcile_overflow (now : Z) (k : string) (d : db) :
  (forall e, reconcile now k d = Err e -> e = numeric_field_overflow)
  /\ (reconcile now k d = Err numeric_field_overflow <->
      exists b, In b (banks d) /\ b_id b = k
                /\ NUMERIC_10_2_LIMIT
                   <= Z.abs (initial_balance b + settled_profit k (bets d))).
Proof.
  unfold reconcile. split; [| split].
  - intros e H.
    destruct (update_banks now k (bets d) (banks d)) as [r | e'] eqn:R;
      simpl in H; [discriminate |].
    injection H as <-. now apply update_banks_Err in R.
  - intros H.
    destruct (update_banks now k (bets d) (banks d)) as [r | e'] eqn:R;
      simpl in H; [discriminate |].
    now apply update_banks_Err in R.
  - intros H. now rewrite (update_banks_overflow now k (bets d) _ H).
Qed.

Example reconcile_db_full :
  reconcile 2 "bank-9" db_full = Err numeric_field_overflow.
Proof. reflexivity. Qed.

(** ** The balance after an insert *)

Lemma SUM_cons (v : option Z) (vs : list (option Z)) :
  COALESCE (SUM (v :: vs)) 0 = COALESCE v 0 + COALESCE (SUM vs) 0.
Proof.
  simpl. destruct v as [x |], (SUM vs) as [s |]; simpl; lia.
Qed.

Lemma SUM_app (l1 l2 : list (option Z)) :
  COALESCE (SUM (l1 ++ l2)) 0 = COALESCE (SUM l1) 0 + COALESCE (SUM l2) 0.
Proof.
  induction l1 as [| v rest IH].
  - simpl. lia.
  - rewrite <- app_comm_cons, !SUM_cons, IH. lia.
Qed.

Lemma settled_profit_app (k : string) (l1 l2 : list bet) :
  settled_profit k (l1 ++ l2) = settled_profit k l1 + settled_profit k l2.
Proof.
  unfold settled_profit. now rewrite filter_app, map_app, SUM_app.
Qed.

Lemma settled_profit_one (k : string) (r : bet) :
  settled_profit k [r]
  = if ((bank_id r =? k)%string && negb (bet_status_eqb (status r) open))
    then COALESCE (profit r) 0 else 0.
Proof.
  unfold settled_profit. simpl.
  destruct ((bank_id r =? k)%string && negb (bet_status_eqb (status r) open));
    [| reflexivity].
  simpl. now destruct (profit r).
Qed.

Lemma insert_bet_balance (uid : string) (now : Z) (NEW : bet) (d d' : db) :
  insert_bet uid now NEW d = Ok d' ->
  exists p,
    settle (amount NEW) (odds NEW) (status NEW) = Ok p
    /\ bets d' = (bets d ++ [set_profit (Some p) NEW])%list
    /\ forall k, In k (banks d') -> b_id k = bank_id NEW ->
         current_balance k
         = initial_balance k + settled_profit (bank_id NEW) (bets d)
         /\ initial_balance k + settled_profit (bank_id NEW) (bets d')
            = current_balance k
              + (if bet_status_eqb (status NEW) open then 0 else p).
Proof.
  intros H. apply insert_bet_Ok in H. destruct H as (p & Hp & Hb & Hr).
  exists p. split; [assumption | split; [assumption |]].
  intros k Hk Hid.
  destruct (Forall2_In_right _ _ _ _ Hr Hk) as (k0 & Hk0 & Hrow).
  pose proof (reconciled_row_keeps _ _ _ _ _ Hrow) as (E & _).
  unfold reconciled_row in Hrow.
  rewrite <- E, Hid, String.eqb_refl in Hrow. destruct Hrow as (-> & _).
  simpl. split; [reflexivity |].
  rewrite Hb, settled_profit_app, settled_profit_one. simpl.
  rewrite String.eqb_refl. simpl.
  destruct (bet_status_eqb (status NEW) open); simpl; lia.
Qed.

(** After a successful insert of a wager, the balance of its bank is the
    initial balance plus the settled profits of the wagers stored before the
    insert: it misses exactly the profit of the inserted wager when that wager
    is won or lost. *)
Theorem insert_bet_balance_misses_new_wager (uid : string) (now : Z)
        (NEW : bet) (d d' : db) :
  insert_bet uid now NEW d = Ok d' ->
  exists p,
    settle (amount NEW) (odds NEW) (status NEW) = Ok p
    /\ bets d' = (bets d ++ [set_profit (Some p) NEW])%list
    /\ forall k, In k (banks d') -> b_id k = bank_id NEW ->
         current_balance k
         = initial_balance k + settled_profit (bank_id NEW) (bets d)
         /\ initial_balance k + settled_profit (bank_id NEW) (bets d')
            = current_balance k
              + (if bet_status_eqb (status NEW) open then 0 else p).
Proof.
  apply insert_bet_balance.
Qed.

Lemma insert_bet_balance_misses_new_wager_witness :
  exists p,
    settle (amount wager_2) (odds wager_2) (status wager_2) = Ok p
    /\ bets db_2
       = (bets (run [op_insert_bet "alice" 1 wager_1] db_0)
          ++ [set_profit (Some p) wager_2])%list
    /\ forall k, In k (banks db_2) -> b_id k = bank_id wager_2 ->
         current_balance k
         = initial_balance k
           + settled_profit (bank_id wager_2)
               (bets (run [op_insert_bet "alice" 1 wager_1] db_0))
         /\ initial_balance k + settled_profit (bank_id wager_2) (bets db_2)
            = current_balance k
              + (if bet_status_eqb (status wager_2) open then 0 else p).
Proof.
  apply (insert_bet_balance_misses_new_wager "alice" 2 wager_2
           (run [op_insert_bet "alice" 1 wager_1] db_0) db_2).
  vm_compute. reflexivity.
Defined.

(** After a successful insert of an open wager, whatever the balance was
    before, the balance of its bank is the initial balance plus the settled
    profits of all the wagers now stored for it. *)
Theorem insert_open_bet_resynchronises (uid : string) (now : Z)
        (NEW : bet) (d d' : db) :
  status NEW = open ->
  insert_bet uid now NEW d = Ok d' ->
  forall k, In k (banks d') -> b_id k = bank_id NEW ->
    current_balance k = initial_balance k + settled_profit (b_id k) (bets d').
Proof.
  intros Hs H k Hk Hid. apply insert_bet_balance in H.
  destruct H as (p & _ & _ & H). destruct (H k Hk Hid) as (_ & E).
  rewrite Hs in E. simpl in E. rewrite Hid. lia.
Qed.

Lemma insert_open_bet_resynchronises_witness :
  current_balance (mk_bank "bank-1" "alice" "Bet365" 100000 110000 0 3)
  = initial_balance (mk_bank "bank-1" "alice" "Bet365" 100000 110000 0 3)
    + settled_profit
        (b_id (mk_bank "bank-1" "alice" "Bet365" 100000 110000 0 3))
        (bets db_3).
Proof.
  apply (insert_open_bet_resynchronises "alice" 3 wager_3 db_2 db_3).
  - reflexivity.
  - vm_compute. reflexivity.
  - vm_compute. left. reflexivity.
  - reflexivity.
Defined.

(** ** Updates *)

Lemma update_rows_no_match (uid : string) (now : Z) (betId : string)
      (p : bet_patch) :
  forall todo done bs,
    (forall r, In r todo -> ~ (id r = betId /\ user_id r = uid)) ->
    update_rows uid now betId p done todo bs = Ok (mk_db bs (done ++ todo)).
Proof.
  induction todo as [| r rest IH]; intros done bs H; simpl.
  - now rewrite app_nil_r.
  - destruct ((id r =? betId) && (user_id r =? uid))%string eqn:E.
    + exfalso. apply andb_true_iff in E. destruct E as (E1 & E2).
      apply String.eqb_eq in E1, E2. apply (H r); [now left | now split].
    + rewrite IH; [now rewrite <- app_assoc |].
      intros x Hx. apply H. now right.
Qed.

(** An update of a wager the caller does not own, or of an identifier no
    wager has, succeeds and changes nothing: no row is written, no trigger
    runs, no balance moves. *)
Theorem update_bet_no_match (uid : string) (now : Z) (betId : string)
        (p : bet_patch) (d : db) :
  (forall r, In r (bets d) -> ~ (id r = betId /\ user_id r = uid)) ->
  update_bet uid now betId p d = Ok d.
Proof.
  intros H. unfold update_bet.
  rewrite update_rows_no_match by assumption. now destruct d.
Qed.

Lemma update_bet_no_match_witness :
  update_bet "mallory" 9 "w1" (status_patch lost) db_3 = Ok db_3.
Proof.
  apply (update_bet_no_match "mallory" 9 "w1" (status_patch lost) db_3).
  intros r Hr (_ & Hu). vm_compute in Hr.
  destruct Hr as [<- | [<- | [<- | []]]]; discriminate Hu.
Defined.

Lemma update_rows_skip (uid : string) (now : Z) (betId : string)
      (p : bet_patch) :
  forall pre done todo bs,
    (forall x, In x pre -> ~ (id x = betId /\ user_id x = uid)) ->
    update_rows uid now betId p done (pre ++ todo) bs
    = update_rows uid now betId p (done ++ pre) todo bs.
Proof.
  induction pre as [| r rest IH]; intros done todo bs H.
  - now rewrite app_nil_r.
  - simpl.
    destruct ((id r =? betId) && (user_id r =? uid))%string eqn:E.
    + exfalso. apply andb_true_iff in E. destruct E as (E1 & E2).
      apply String.eqb_eq in E1, E2. apply (H r); [now left | now split].
    + rewrite IH; [| intros x Hx; apply H; now right].
      now rewrite <- app_assoc.
Qed.

(** After a successful update of a wager, the row holds the new values, the
    profit settled from them and the time of the update; the rows around it
    are untouched; and the balance of its bank is the initial balance plus the
    settled profits of the wagers as they were before the update. *)
Theorem update_bet_balance_lags (uid : string) (now : Z) (betId : string)
        (p : bet_patch) (d d' : db) (pre post : list bet) (r : bet) :
  bets d = (pre ++ r :: post)%list ->
  id r = betId -> user_id r = uid ->
  (forall x, In x (pre ++ post) -> id x <> betId) ->
  update_bet uid now betId p d = Ok d' ->
  exists pnew,
    let row := set_updated_at now (set_profit (Some pnew) (apply_patch p r)) in
    settle (amount row) (odds row) (status row) = Ok pnew
    /\ bets d' = (pre ++ row :: post)%list
    /\ forall k, In k (banks d') -> b_id k = bank_id row ->
         current_balance k
         = initial_balance k + settled_profit (b_id k) (bets d).
Proof.
  intros Hd Hid Hu Hother H. unfold update_bet in H. rewrite Hd in H.
  rewrite update_rows_skip in H
    by (intros x Hx (E & _); apply (Hother x); [apply in_or_app; now left | easy]).
  simpl in H.
  assert (E : ((id r =? betId) && (user_id r =? uid))%string = true)
    by (apply andb_true_iff; split; now apply String.eqb_eq).
  rewrite E in H.
  bind_inv H. bind_inv H. bind_inv H. destruct a1 as (NEW' & d1).
  bind_inv H. bind_inv H.
  rewrite update_rows_no_match in H
    by (intros x Hx (E' & _); apply (Hother x);
        [apply in_or_app; now right | easy]).
  injection H as <-. simpl.
  apply update_bank_balance_Ok in Ha1.
  destruct Ha1 as (pnew & Hp & -> & Hr).
  exists pnew. split; [exact Hp | split].
  - now rewrite <- app_assoc.
  - intros k Hk Hkid.
    apply reconcile_banks in Hr. simpl in Hr.
    destruct (Forall2_In_right _ _ _ _ Hr Hk) as (k0 & Hk0 & Hrow).
    pose proof (reconciled_row_keeps _ _ _ _ _ Hrow) as (Ek & _).
    simpl in Hkid.
    assert (Ek0 : b_id k0 = or_old (p_bank_id p) (bank_id r)) by congruence.
    unfold reconciled_row in Hrow. simpl in Hrow.
    rewrite Ek0, String.eqb_refl in Hrow.
    destruct Hrow as (-> & _). simpl. now rewrite Hd, Ek0.
Qed.

Lemma update_bet_balance_lags_witness :
  exists pnew,
    let row := set_updated_at 3 (set_profit (Some pnew)
                 (apply_patch (status_patch open)
                              (set_profit (Some 15000) wager_1))) in
    settle (amount row) (odds row) (status row) = Ok pnew
    /\ bets (run [op_update_bet "alice" 3 "w1" (status_patch open)] db_2)
       = ([] ++ row :: [set_profit (Some (- 5000)) wager_2])%list
    /\ forall k,
         In k (banks (run [op_update_bet "alice" 3 "w1" (status_patch open)]
                          db_2)) ->
         b_id k = bank_id row ->
         current_balance k
         = initial_balance k + settled_profit (b_id k) (bets db_2).
Proof.
  apply (update_bet_balance_lags "alice" 3 "w1" (status_patch open) db_2
           (run [op_update_bet "alice" 3 "w1" (status_patch open)] db_2)
           [] [set_profit (Some (- 5000)) wager_2]
           (set_profit (Some 15000) wager_1)).
  - reflexivity.
  - reflexivity.
  - reflexivity.
  - intros x [<- | []]. discriminate.
  - vm_compute. reflexivity.
Defined.

(** ** What a caller's statements on wagers leave alone *)

(** An insert, an update or a delete of wagers issued by one user changes
    nothing of what another user reads from the table of wagers. *)
Theorem bets_statements_isolated (uid other : string) (now : Z) (d : db) :
  other <> uid ->
  (forall NEW d', insert_bet uid now NEW d = Ok d' ->
                  select_bets other d' = select_bets other d)
  /\ (forall betId p d', update_bet uid now betId p d = Ok d' ->
                         select_bets other d' = select_bets other d)
  /\ (forall betId d', delete_bet uid betId d = Ok d' ->
                       select_bets other d' = select_bets other d).
Proof.
  intros Hne. split; [| split].
  - intros NEW d' H. unfold insert_bet in H.
    bind_inv H. bind_inv H. bind_inv H. destruct a1 as (NEW' & d1).
    bind_inv H. bind_inv H. bind_inv H. injection H as <-.
    apply guard_Ok, String.eqb_eq in Ha2.
    apply update_bank_balance_settled in Ha1. destruct Ha1 as (_ & Hb).
    unfold select_bets. simpl. rewrite filter_app, Hb. simpl.
    destruct (String.eqb_spec (user_id NEW') other) as [E | E];
      [congruence | now rewrite app_nil_r].
  - intros betId p d' H. eapply update_bet_others; eassumption.
  - intros betId d' H. unfold delete_bet in H. injection H as <-.
    unfold select_bets. simpl.
    induction (bets d) as [| r rest IH]; simpl; [reflexivity |].
    destruct (String.eqb_spec (user_id r) uid) as [E | E].
    + destruct (String.eqb_spec (user_id r) other) as [E' | E'];
        [congruence |].
      destruct (id r =? betId)%string; simpl; [assumption |].
      destruct (String.eqb_spec (user_id r) other); [congruence | assumption].
    + rewrite andb_false_r. simpl.
      destruct (user_id r =? other)%string; [now rewrite IH | assumption].
Qed.

Lemma bets_statements_isolated_witness :
  (forall NEW d', insert_bet "mallory" 4 NEW db_3 = Ok d' ->
                  select_bets "alice" d' = select_bets "alice" db_3)
  /\ (forall betId p d', update_bet "mallory" 4 betId p db_3 = Ok d' ->
                         select_bets "alice" d' = select_bets "alice" db_3)
  /\ (forall betId d', delete_bet "mallory" betId db_3 = Ok d' ->
                       select_bets "alice" d' = select_bets "alice" db_3).
Proof.
  apply (bets_statements_isolated "mallory" "alice" 4 db_3). discriminate.
Defined.

(** ** Keys and references *)

Lemma bank_exists_In (k : string) (bs : list bank) :
  bank_exists k bs = true <-> In k (map b_id bs).
Proof.
  unfold bank_exists. rewrite existsb_exists, in_map_iff.
  split; intros (b & H1 & H2).
  - apply String.eqb_eq in H2. now exists b.
  - exists b. split; [assumption | now apply String.eqb_eq].
Qed.

Lemma bet_exists_In (i : string) (rows : list bet) :
  bet_exists i rows = true <-> In i (map id rows).
Proof.
  unfold bet_exists. rewrite existsb_exists, in_map_iff.
  split; intros (b & H1 & H2).
  - apply String.eqb_eq in H2. now exists b.
  - exists b. split; [assumption | now apply String.eqb_eq].
Qed.

Lemma NoDup_map_filter {A B : Type} (f : A -> B) (q : A -> bool)
      (l : list A) :
  NoDup (map f l) -> NoDup (map f (filter q l)).
Proof.
  induction l as [| a rest IH]; simpl; intros H.
  - constructor.
  - apply NoDup_cons_iff in H. destruct H as (Ha & Hrest).
    destruct (q a); simpl; [| now apply IH].
    constructor; [| now apply IH].
    intros Hin. apply Ha. apply in_map_iff in Hin.
    destruct Hin as (x & E & Hx). apply filter_In in Hx.
    apply in_map_iff. exists x. now split.
Qed.

Lemma update_bank_balance_keeps (now : Z) (NEW NEW' : bet) (d d' : db) :
  update_bank_balance now NEW d = Ok (NEW', d') ->
  id NEW' = id NEW /\ bank_id NEW' = bank_id NEW
  /\ user_id NEW' = user_id NEW
  /\ bets d' = bets d /\ map b_id (banks d') = map b_id (banks d).
Proof.
  intros H. apply update_bank_balance_Ok in H.
  destruct H as (p & _ & -> & Hr). simpl.
  pose proof (reconcile_bets _ _ _ _ Hr) as Hb.
  apply reconcile_banks, reconciled_rows_keep in Hr.
  destruct Hr as (Hid & _). now repeat split.
Qed.

Lemma update_rows_keys (uid : string) (now : Z) (betId : string)
      (p : bet_patch) :
  forall todo done bs d',
    update_rows uid now betId p done todo bs = Ok d' ->
    map id (bets d') = map id (done ++ todo)
    /\ map b_id (banks d') = map b_id bs
    /\ (Forall (fun r => In (bank_id r) (map b_id bs)) (done ++ todo) ->
        Forall (fun r => In (bank_id r) (map b_id (banks d'))) (bets d')).
Proof.
  induction todo as [| r rest IH]; intros done bs d' H; simpl in H.
  - injection H as <-. simpl. rewrite app_nil_r. now repeat split.
  - destruct ((id r =? betId) && (user_id r =? uid))%string.
    + bind_inv H. bind_inv H. bind_inv H. destruct a1 as (NEW' & d1).
      bind_inv H. bind_inv H.
      apply update_bank_balance_keeps in Ha1. simpl in Ha1.
      destruct Ha1 as (E1 & E2 & _ & _ & E5). simpl in E5.
      apply guard_Ok in Ha3. simpl in Ha3.
      apply IH in H. destruct H as (H1 & H2 & H3).
      split; [| split].
      * rewrite H1, <- !app_assoc, !map_app. simpl. now rewrite E1.
      * congruence.
      * intros HF. apply H3. rewrite E5.
        rewrite <- app_assoc. simpl.
        apply Forall_app in HF. destruct HF as (HF1 & HF2).
        inversion HF2 as [| ? ? Hr Hrest]; subst.
        apply Forall_app. split; [assumption |].
        constructor; [| assumption]. simpl.
        apply orb_true_iff in Ha3. destruct Ha3 as [E | E].
        -- apply String.eqb_eq in E. rewrite E2 in E. simpl in E.
           rewrite E2. simpl. now rewrite E.
        -- apply bank_exists_In in E. now rewrite <- E5.
    + apply IH in H. now rewrite <- !app_assoc in H.
Qed.

Lemma exec_integrity (o : op) (d d' : db) :
  integrity d -> exec o d = Ok d' -> integrity d'.
Proof.
  intros (Hbets & Hbanks & Hfk) H.
  assert (Hfk' : Forall (fun r => In (bank_id r) (map b_id (banks d)))
                        (bets d)).
  { eapply Forall_impl; [| exact Hfk]. intros r. apply bank_exists_In. }
  unfold integrity.
  destruct o as [u n NEW | u n bid p | u bid | u NEW | u bk]; simpl in H.
  - unfold insert_bet in H.
    bind_inv H. bind_inv H. bind_inv H. destruct a1 as (NEW' & d1).
    bind_inv H. bind_inv H. bind_inv H. injection H as <-. simpl.
    apply update_bank_balance_keeps in Ha1.
    destruct Ha1 as (_ & _ & _ & E4 & E5).
    apply guard_Ok, negb_true_iff in Ha3.
    apply guard_Ok in Ha4.
    rewrite E4 in *. split; [| split].
    + rewrite map_app. simpl.
      apply NoDup_app; [assumption | repeat constructor; intros [] |].
      intros x Hx [<- | []].
      apply bet_exists_In in Hx. congruence.
    + now rewrite E5.
    + apply Forall_app. split; [| now repeat constructor].
      eapply Forall_impl; [| exact Hfk'].
      intros r Hr. apply bank_exists_In. now rewrite E5.
  - unfold update_bet in H. apply update_rows_keys in H.
    destruct H as (H1 & H2 & H3). simpl in *.
    split; [now rewrite H1 | split; [now rewrite H2 |]].
    eapply Forall_impl; [| exact (H3 Hfk')].
    intros r. apply bank_exists_In.
  - unfold delete_bet in H. injection H as <-. simpl.
    split; [now apply NoDup_map_filter | split; [assumption |]].
    apply Forall_forall. intros r Hr. apply filter_In in Hr.
    rewrite Forall_forall in Hfk. now apply Hfk.
  - unfold insert_bank in H.
    bind_inv H. bind_inv H. bind_inv H. bind_inv H. injection H as <-.
    simpl. apply guard_Ok, negb_true_iff in Ha2.
    split; [assumption | split].
    + rewrite map_app. simpl.
      apply NoDup_app; [assumption | repeat constructor; intros [] |].
      intros x Hx [<- | []].
      apply bank_exists_In in Hx. congruence.
    + eapply Forall_impl; [| exact Hfk'].
      intros r Hr. apply bank_exists_In. rewrite map_app.
      apply in_or_app. now left.
  - unfold delete_bank in H. injection H as <-. simpl.
    split; [now apply NoDup_map_filter |
            split; [now apply NoDup_map_filter |]].
    apply Forall_forall. intros r Hr. apply filter_In in Hr.
    destruct Hr as (Hr & Hkeep).
    rewrite Forall_forall in Hfk'. specialize (Hfk' r Hr).
    apply in_map_iff in Hfk'. destruct Hfk' as (k & Hk & Hin).
    apply bank_exists_In, in_map_iff. exists k. split; [assumption |].
    apply filter_In. split; [assumption |].
    apply negb_true_iff. apply negb_true_iff in Hkeep.
    apply andb_false_iff in Hkeep. destruct Hkeep as [Hnone | Hother].
    + destruct ((b_id k =? bk) && (b_user_id k =? u))%string eqn:G;
        [| reflexivity].
      exfalso. apply not_true_iff_false in Hnone. apply Hnone.
      apply existsb_exists. now exists k.
    + apply andb_false_iff. left.
      apply String.eqb_neq in Hother. apply String.eqb_neq. congruence.
Qed.

Lemma run_integrity (ops : list op) :
  forall d, integrity d -> integrity (run ops d).
Proof.
  induction ops as [| o ops IH]; intros d Hd; simpl.
  - assumption.
  - apply IH. unfold step.
    destruct (exec o d) as [d' |] eqn:E; [| assumption].
    eapply exec_integrity; eassumption.
Qed.

(** In every database reached from the empty one by inserts, updates and
    deletes of wagers and banks, the identifiers of the wagers are pairwise
    distinct, the identifiers of the banks are pairwise distinct, and every
    wager refers to a bank that is stored. *)
Theorem keys_and_references (ops : list op) :
  NoDup (map id (bets (run ops empty_db)))
  /\ NoDup (map b_id (banks (run ops empty_db)))
  /\ forall r, In r (bets (run ops empty_db)) ->
               exists k, In k (banks (run ops empty_db))
                         /\ b_id k = bank_id r.
Proof.
  assert (H : integrity (run ops empty_db)).
  { apply run_integrity. repeat split; constructor. }
  destruct H as (H1 & H2 & H3).
  split; [assumption | split; [assumption |]].
  intros r Hr. rewrite Forall_forall in H3. specialize (H3 r Hr).
  apply bank_exists_In, in_map_iff in H3.
  destruct H3 as (k & E & Hk). now exists k.
Qed.

(** ** Deleting a bank *)

Lemma existsb_owned (uid bankId : string) (bs : list bank) :
  existsb (fun k => (b_id k =? bankId) && (b_user_id k =? uid))%string bs
  = true
  <-> exists k, In k bs /\ b_id k = bankId /\ b_user_id k = uid.
Proof.
  rewrite existsb_exists. split; intros (k & Hk & H); exists k.
  - apply andb_true_iff in H. destruct H as (H1 & H2).
    apply String.eqb_eq in H1, H2. now repeat split.
  - destruct H as (H1 & H2). split; [assumption |].
    apply andb_true_iff. split; now apply String.eqb_eq.
Qed.

(** When the caller owns a bank with the identifier, deleting it removes
    that bank and every wager that refers to the identifier, whoever owns the
    wager, and nothing else. *)
Theorem handleDeleteBank_cascade (uid bankId : string) (d : db) :
  (exists k, In k (banks d) /\ b_id k = bankId /\ b_user_id k = uid) ->
  exists d',
    handleDeleteBank uid bankId d = Ok d'
    /\ (forall r, In r (bets d') <-> In r (bets d) /\ bank_id r <> bankId)
    /\ (forall k, In k (banks d') <->
                  In k (banks d) /\ ~ (b_id k = bankId /\ b_user_id k = uid)).
Proof.
  intros Hown. apply existsb_owned in Hown.
  eexists. split; [reflexivity | split].
  - intros r. simpl. rewrite filter_In, Hown. simpl.
    rewrite negb_true_iff, String.eqb_neq. reflexivity.
  - intros k. simpl. rewrite filter_In.
    rewrite negb_true_iff, andb_false_iff, !String.eqb_neq. split.
    + intros (Hk & H). split; [assumption |].
      intros (E1 & E2). destruct H; contradiction.
    + intros (Hk & H). split; [assumption |].
      destruct (String.eqb_spec (b_id k) bankId) as [E | E]; [| now left].
      right. intros E2. apply H. now split.
Qed.

Lemma handleDeleteBank_cascade_witness :
  exists d',
    handleDeleteBank "alice" "bank-1" db_3 = Ok d'
    /\ (forall r, In r (bets d') <-> In r (bets db_3) /\ bank_id r <> "bank-1")
    /\ (forall k, In k (banks d') <->
                  In k (banks db_3)
                  /\ ~ (b_id k = "bank-1" /\ b_user_id k = "alice")).
Proof.
  apply (handleDeleteBank_cascade "alice" "bank-1" db_3).
  eexists. split; [vm_compute; left; reflexivity |].
  split; reflexivity.
Defined.

Lemma filter_all {A : Type} (q : A -> bool) (l : list A) :
  (forall x, In x l -> q x = true) -> filter q l = l.
Proof.
  induction l as [| a rest IH]; simpl; intros H; [reflexivity |].
  rewrite (H a) by now left. rewrite IH; [reflexivity |].
  intros x Hx. apply H. now right.
Qed.

(** Deleting a bank the caller does not own, or one that does not exist,
    succeeds and changes nothing: the bank and its wagers stay. *)
Theorem handleDeleteBank_not_owner (uid bankId : string) (d : db) :
  (forall k, In k (banks d) -> ~ (b_id k = bankId /\ b_user_id k = uid)) ->
  handleDeleteBank uid bankId d = Ok d.
Proof.
  intros H. unfold handleDeleteBank, delete_bank.
  assert (E : existsb (fun k => (b_id k =? bankId) && (b_user_id k =? uid))%string
                      (banks d) = false).
  { apply not_true_iff_false. rewrite existsb_owned.
    intros (k & Hk & Hko). now apply (H k). }
  rewrite E. simpl.
  rewrite (filter_all _ (bets d)) by reflexivity.
  rewrite (filter_all _ (banks d)); [now destruct d |].
  intros k Hk. apply negb_true_iff, not_true_iff_false.
  intros G. apply andb_true_iff in G. destruct G as (G1 & G2).
  apply String.eqb_eq in G1, G2. now apply (H k).
Qed.

Lemma handleDeleteBank_not_owner_witness :
  handleDeleteBank "mallory" "bank-1" db_3 = Ok db_3.
Proof.
  apply (handleDeleteBank_not_owner "mallory" "bank-1" db_3).
  intros k Hk (_ & Hu). vm_compute in Hk.
  destruct Hk as [<- | []]. discriminate Hu.
Defined.

(** ** Creating a wager and a bank through the pages *)

Lemma number_to_numeric_Finite (q : Q) (v : Z) :
  number_to_numeric (Finite q) = Ok v ->
  v = round_half_away (100 * Qnum q) (Zpos (Qden q)).
Proof.
  unfold number_to_numeric, numeric_10_2.
  destruct (Z.abs _ <? NUMERIC_10_2_LIMIT); congruence.
Qed.

Lemma number_to_numeric_nonneg (q : Q) (v : Z) :
  (0 <= q)%Q -> number_to_numeric (Finite q) = Ok v -> 0 <= v.
Proof.
  intros Hq H. apply number_to_numeric_Finite in H. subst v.
  assert (Hn : 0 <= Qnum q).
  { unfold Qle in Hq. simpl in Hq. lia. }
  now apply (round_half_away_nonneg (100 * Qnum q) (Zpos (Qden q)));
    [lia | lia].
Qed.

Lemma number_to_numeric_ge_1 (q : Q) (v : Z) :
  (1 <= q)%Q -> number_to_numeric (Finite q) = Ok v -> 100 <= v.
Proof.
  intros Hq H. apply number_to_numeric_Finite in H. subst v.
  assert (Hn : Zpos (Qden q) <= Qnum q).
  { unfold Qle in Hq. simpl in Hq. lia. }
  pose proof (Pos2Z.is_pos (Qden q)) as Hd.
  unfold round_half_away.
  rewrite (Z.abs_eq (100 * Qnum q)) by lia.
  rewrite (Z.sgn_pos (100 * Qnum q)) by lia. rewrite Z.mul_1_l.
  apply Z.div_le_lower_bound; lia.
Qed.

(** [handleSubmit] writes only when it reports success.  Either the database
    is the one before the call, or the toast is "Apuesta registrada" and
    exactly one wager is appended: it has the generated identifier, the caller
    as owner, the bank and the outcome of the form, an amount of at least 0.00,
    odds of at least 1.00 and the settled profit; the bank exists and the
    identifier was unused. *)
Theorem handleSubmit_outcome (session : option string) (now : Z)
        (new_id : string) (f : new_bet_form) (d : db) :
  let t := fst (handleSubmit session now new_id f d) in
  let d' := snd (handleSubmit session now new_id f d) in
  (t <> toast_registered /\ d' = d)
  \/ (t = toast_registered
      /\ exists uid row,
           session = Some uid
           /\ bets d' = (bets d ++ [row])%list
           /\ id row = new_id /\ user_id row = uid
           /\ bank_id row = bankId f /\ status row = f_status f
           /\ 0 <= amount row /\ 100 <= odds row
           /\ settled row
           /\ bank_exists (bankId f) (banks d) = true
           /\ bet_exists new_id (bets d) = false).
Proof.
  unfold handleSubmit.
  destruct (isNaN (betAmount f) || num_le (betAmount f) 0) eqn:E1;
    [left; split; [discriminate | reflexivity] |].
  destruct (isNaN (betOdds f) || num_lt (betOdds f) 1) eqn:E2;
    [left; split; [discriminate | reflexivity] |].
  destruct (bankId f =? EmptyString)%string;
    [left; split; [discriminate | reflexivity] |].
  destruct session as [uid |];
    [| left; split; [discriminate | reflexivity]].
  destruct (betAmount f) as [| qa]; [discriminate |].
  destruct (betOdds f) as [| qo]; [discriminate |].
  simpl in E1, E2. apply negb_false_iff, Qle_bool_iff in E2.
  apply not_true_iff_false in E1. rewrite Qle_bool_iff in E1.
  apply Qnot_le_lt, Qlt_le_weak in E1.
  match goal with
  | |- context [match ?c with Ok _ => _ | Err _ => _ end] =>
      destruct c as [d1 | e] eqn:H
  end; [| left; split; [discriminate | reflexivity]].
  right. split; [reflexivity |]. simpl.
  bind_inv H. bind_inv H.
  pose proof (number_to_numeric_nonneg _ _ E1 Ha) as Hamt.
  pose proof (number_to_numeric_ge_1 _ _ E2 Ha0) as Hodds.
  unfold insert_bet in H.
  bind_inv H. bind_inv H. bind_inv H. destruct a3 as (NEW' & d2).
  bind_inv H. bind_inv H. bind_inv H. injection H as <-. simpl.
  pose proof (update_bank_balance_keeps _ _ _ _ _ Ha3)
    as (K1 & K2 & K3 & K4 & K5).
  pose proof (update_bank_balance_settled _ _ _ _ _ Ha3) as (Hs & _).
  apply update_bank_balance_Ok in Ha3.
  destruct Ha3 as (pn & _ & -> & _). simpl in *.
  apply guard_Ok, negb_true_iff in Ha5. apply guard_Ok in Ha6.
  exists uid. eexists. split; [reflexivity |].
  split; [now rewrite K4 |]. simpl.
  repeat (split; [first [reflexivity | assumption] |]).
  split; [apply bank_exists_In; rewrite <- K5; now apply bank_exists_In |].
  now rewrite <- K4.
Qed.

(** The bound on the amount is reached: a stake of 0.004 passes the check
    [betAmount <= 0] and is stored as 0.00. *)
Example handleSubmit_stores_zero_amount :
  let r := handleSubmit (Some "alice") 1 "w1"
             (mk_form "bank-1" (Finite (1 # 250)) (Finite (5 # 2)) won
                      EmptyString 1) db_0 in
  fst r = toast_registered /\ map amount (bets (snd r)) = [0].
Proof. split; reflexivity. Qed.

Lemma settled_profit_no_wager (k : string) (rows : list bet) :
  (forall r, In r rows -> bank_id r <> k) -> settled_profit k rows = 0.
Proof.
  intros H. unfold settled_profit.
  replace (filter _ rows) with (@nil bet); [reflexivity |].
  symmetry. induction rows as [| r rest IH]; simpl; [reflexivity |].
  destruct (String.eqb_spec (bank_id r) k) as [E | E].
  - exfalso. apply (H r); [now left | assumption].
  - simpl. apply IH. intros x Hx. apply H. now right.
Qed.

(** [handleCreateBank] writes only when it reports success.  In a database
    where every wager refers to a stored bank, either the database is the one
    before the call, or the toast is "Bank creado" and exactly one bank is
    appended: it has the generated identifier, which was unused, the caller as
    owner, and a current balance equal to its initial balance, which is at
    least 0.00; no wager refers to it, so its balance is its initial balance
    plus the settled profits of its wagers. *)
Theorem handleCreateBank_outcome (session : option string) (now : Z)
        (new_id newBankName : string) (balance : number) (d : db) :
  Forall (fun r => bank_exists (bank_id r) (banks d) = true) (bets d) ->
  let t := fst (handleCreateBank session now new_id newBankName balance d) in
  let d' := snd (handleCreateBank session now new_id newBankName balance d) in
  (t <> toast_bank_created /\ d' = d)
  \/ (t = toast_bank_created
      /\ exists uid b,
           session = Some uid
           /\ 0 <= b
           /\ bets d' = bets d
           /\ banks d'
              = (banks d ++ [mk_bank new_id uid newBankName b b now now])%list
           /\ bank_exists new_id (banks d) = false
           /\ b = b + settled_profit new_id (bets d')).
Proof.
  intros Hfk. unfold handleCreateBank.
  destruct (isNaN balance || num_lt balance 0) eqn:E1;
    [left; split; [discriminate | reflexivity] |].
  destruct session as [uid |];
    [| left; split; [discriminate | reflexivity]].
  destruct balance as [| q]; [discriminate |].
  simpl in E1. apply negb_false_iff, Qle_bool_iff in E1.
  match goal with
  | |- context [match ?c with Ok _ => _ | Err _ => _ end] =>
      destruct c as [d1 | e] eqn:H
  end; [| left; split; [discriminate | reflexivity]].
  right. split; [reflexivity |]. simpl.
  bind_inv H. pose proof (number_to_numeric_nonneg _ _ E1 Ha) as Hb.
  unfold createBank, insert_bank in H. simpl in H.
  bind_inv H. bind_inv H. bind_inv H. bind_inv H. injection H as <-.
  apply guard_Ok, negb_true_iff in Ha3. simpl.
  exists uid, a. repeat (split; [first [reflexivity | assumption] |]).
  rewrite settled_profit_no_wager; [lia |].
  intros r Hr E. rewrite Forall_forall in Hfk. specialize (Hfk r Hr).
  congruence.
Qed.

Lemma handleCreateBank_outcome_witness :
  let t := fst (handleCreateBank (Some "alice") 5 "bank-2" "Second"
                                 (Finite 500) db_3) in
  let d' := snd (handleCreateBank (Some "alice") 5 "bank-2" "Second"
                                  (Finite 500) db_3) in
  (t <> toast_bank_created /\ d' = db_3)
  \/ (t = toast_bank_created
      /\ exists uid b,
           Some "alice" = Some uid
           /\ 0 <= b
           /\ bets d' = bets db_3
           /\ banks d'
              = (banks db_3 ++ [mk_bank "bank-2" uid "Second" b b 5 5])%list
           /\ bank_exists "bank-2" (banks db_3) = false
           /\ b = b + settled_profit "bank-2" (bets d')).
Proof.
  apply (handleCreateBank_outcome (Some "alice") 5 "bank-2" "Second"
           (Finite 500) db_3).
  vm_compute. repeat constructor.
Defined.

Example handleCreateBank_negative :
  handleCreateBank (Some "alice") 5 "bank-2" "Second" (Finite (- 1)) db_3
  = (toast_balance_invalid, db_3).
Proof. reflexivity. Qed.

Example handleCreateBank_zero :
  fst (handleCreateBank (Some "alice") 5 "bank-2" "Second" (Finite 0) db_3)
  = toast_bank_created.
Proof. reflexivity. Qed.

(** ** The pages of the history *)

Lemma fetchBets_items (tie : tie_order) (uid : string) (d : db)
      (selectedBank : string) (statusFilter : option bet_status) (p : Z) :
  1 <= p ->
  fst (fetchBets tie uid d selectedBank statusFilter p)
  = firstn 10 (skipn (Z.to_nat (10 * (p - 1)))
                     (order_by_history tie
                        (filter (history_wantedb uid selectedBank statusFilter)
                                (bets d)))).
Proof.
  intros Hp. unfold fetchBets, range, ITEMS_PER_PAGE. simpl fst.
  rewrite history_matching_wanted.
  replace (Z.to_nat (p * 10 - 1 - (p - 1) * 10 + 1)) with 10%nat by lia.
  now replace ((p - 1) * 10) with (10 * (p - 1)) by lia.
Qed.

Lemma fetchBets_count (tie : tie_order) (uid : string) (d : db)
      (selectedBank : string) (statusFilter : option bet_status) (p : Z) :
  snd (fetchBets tie uid d selectedBank statusFilter p)
  = Z.of_nat (List.length
                (filter (history_wantedb uid selectedBank statusFilter)
                        (bets d))).
Proof.
  unfold fetchBets. simpl snd. now rewrite history_matching_wanted.
Qed.

Lemma fetchBets_length (tie : tie_order) (uid : string) (d : db)
      (selectedBank : string) (statusFilter : option bet_status) (p : Z) :
  1 <= p ->
  Z.of_nat (List.length
              (fst (fetchBets tie uid d selectedBank statusFilter p)))
  = Z.max 0 (Z.min 10
               (Z.of_nat (List.length
                            (filter
                               (history_wantedb uid selectedBank statusFilter)
                               (bets d)))
                - 10 * (p - 1))).
Proof.
  intros Hp. rewrite fetchBets_items by assumption.
  rewrite length_firstn, length_skipn.
  rewrite <- (Permutation_length (order_by_history_perm tie _)). lia.
Qed.

Lemma In_firstn {A : Type} (n : nat) (l : list A) (x : A) :
  In x (firstn n l) -> In x l.
Proof.
  intros H. rewrite <- (firstn_skipn n l). apply in_or_app. now left.
Qed.

Lemma In_skipn {A : Type} (n : nat) (l : list A) (x : A) :
  In x (skipn n l) -> In x l.
Proof.
  intros H. rewrite <- (firstn_skipn n l). apply in_or_app. now right.
Qed.

(** Every wager [fetchBets] returns, on any page and however the query
    orders wagers with equal keys, is a stored wager of the caller, of the
    selected bank, and of the selected outcome when a filter is set. *)
Theorem fetchBets_only_matching (tie : tie_order) (uid : string) (d : db)
        (selectedBank : string) (statusFilter : option bet_status) (p : Z)
        (r : bet) :
  In r (fst (fetchBets tie uid d selectedBank statusFilter p)) ->
  In r (bets d) /\ user_id r = uid /\ bank_id r = selectedBank
  /\ forall s, statusFilter = Some s -> status r = s.
Proof.
  unfold fetchBets, range. simpl fst. intros H.
  apply In_firstn, In_skipn in H.
  apply (Permutation_in _ (Permutation_sym (order_by_history_perm tie _)))
    in H.
  unfold history_matching in H.
  assert (Hq : In r (filter (fun r => (bank_id r =? selectedBank)%string)
                            (select_bets uid d))
               /\ forall s, statusFilter = Some s -> status r = s).
  { destruct statusFilter as [s |].
    - apply filter_In in H. destruct H as (H & Hs). split; [assumption |].
      intros s' [= <-]. now destruct (status r), s.
    - split; [assumption | discriminate]. }
  destruct Hq as (Hq & Hs). apply filter_In in Hq. destruct Hq as (Hq & Hb).
  unfold select_bets in Hq. apply filter_In in Hq. destruct Hq as (Hq & Hu).
  apply String.eqb_eq in Hb, Hu. now repeat split.
Qed.

Lemma fetchBets_only_matching_witness :
  In wager_1_reopened
     (bets (run [op_update_bet "alice" 3 "w1" (status_patch open)] db_2))
  /\ user_id wager_1_reopened = "alice"
  /\ bank_id wager_1_reopened = "bank-1"
  /\ forall s, Some open = Some s -> status wager_1_reopened = s.
Proof.
  apply (fetchBets_only_matching table_order "alice"
           (run [op_update_bet "alice" 3 "w1" (status_patch open)] db_2)
           "bank-1" (Some open) 1 wager_1_reopened).
  vm_compute. left. reflexivity.
Defined.

Lemma firstn_plus {A : Type} (a b : nat) :
  forall l : list A,
    firstn (a + b) l = (firstn a l ++ firstn b (skipn a l))%list.
Proof.
  induction a as [| a IH]; intros l; simpl.
  - reflexivity.
  - destruct l as [| x rest]; simpl.
    + now rewrite firstn_nil.
    + now rewrite IH.
Qed.

Lemma concat_windows {A : Type} (c : nat) (l : list A) (n : nat) :
  List.concat (map (fun i => firstn c (skipn (c * i) l)) (seq 0 n))
  = firstn (c * n) l.
Proof.
  induction n as [| n IH].
  - rewrite Nat.mul_0_r. reflexivity.
  - rewrite seq_S, map_app, concat_app, IH. simpl.
    rewrite app_nil_r.
    replace (c * S n)%nat with (c * n + c)%nat by lia.
    now rewrite firstn_plus.
Qed.

(** Two ordered lists of the same wagers are equal when no two different
    wagers among them have the same keys. *)
Lemma history_order_unique :
  forall l1 l2 : list bet,
    StronglySorted history_order l1 ->
    StronglySorted history_order l2 ->
    Permutation l1 l2 ->
    (forall a b, In a l1 -> In b l1 ->
                 bet_date a = bet_date b -> created_at a = created_at b ->
                 a = b) ->
    l1 = l2.
Proof.
  induction l1 as [| a l1 IH]; intros l2 H1 H2 P Hkeys.
  - apply Permutation_nil in P. now subst.
  - destruct l2 as [| b l2];
      [apply Permutation_sym, Permutation_nil in P; discriminate |].
    inversion H1 as [| ? ? Hs1 Ha]; subst.
    inversion H2 as [| ? ? Hs2 Hb]; subst.
    rewrite Forall_forall in Ha, Hb.
    assert (E : a = b).
    { assert (Hab : In a (b :: l2))
        by (apply (Permutation_in _ P); now left).
      assert (Hba : In b (a :: l1))
        by (apply (Permutation_in _ (Permutation_sym P)); now left).
      destruct Hab as [Hab | Hab]; [now symmetry |].
      destruct Hba as [Hba | Hba]; [now symmetry |].
      specialize (Ha b Hba). specialize (Hb a Hab).
      apply Hkeys; [now left | now right | |];
        unfold history_order in Ha, Hb; lia. }
    subst b. f_equal. apply IH; [assumption | assumption | |].
    + eapply Permutation_cons_inv; eassumption.
    + intros x y Hx Hy. apply Hkeys; now right.
Qed.

(** When no two different wagers among those requested have the same
    settlement date and creation timestamp, the pages 1 to [totalPages] of
    the history, each fetched by a query of its own, hold together exactly the
    stored wagers of the caller, of the selected bank and of the selected
    outcome, each one once, and one after the other they are in the order of
    the history. *)
Theorem history_pages_partition (ties : nat -> tie_order) (uid : string)
        (d : db) (selectedBank : string) (statusFilter : option bet_status) :
  (forall a b,
      In a (bets d) -> In b (bets d) ->
      history_wanted uid selectedBank statusFilter a ->
      history_wanted uid selectedBank statusFilter b ->
      bet_date a = bet_date b -> created_at a = created_at b -> a = b) ->
  let pages := history_pages ties uid d selectedBank statusFilter in
  Permutation (filter (history_wantedb uid selectedBank statusFilter) (bets d))
              (List.concat pages)
  /\ StronglySorted history_order (List.concat pages)
  /\ forall r, In r (List.concat pages) <->
               In r (bets d) /\ history_wanted uid selectedBank statusFilter r.
Proof.
  intros Hkeys pages.
  set (wanted := filter (history_wantedb uid selectedBank statusFilter)
                        (bets d)).
  assert (Hsame : forall tie,
             order_by_history tie wanted = order_by_history table_order wanted).
  { intros tie. apply history_order_unique.
    - apply order_by_history_sorted.
    - apply order_by_history_sorted.
    - rewrite <- (order_by_history_perm tie wanted).
      apply order_by_history_perm.
    - intros a b Ha Hb.
      apply (Permutation_in _ (Permutation_sym
                                 (order_by_history_perm tie wanted))) in Ha, Hb.
      subst wanted. apply filter_In in Ha, Hb.
      destruct Ha as (Ha & Wa), Hb as (Hb & Wb).
      apply history_wantedb_spec in Wa, Wb. now apply Hkeys. }
  assert (E : List.concat pages = order_by_history table_order wanted).
  { subst pages. unfold history_pages.
    rewrite fetchBets_count. fold wanted.
    rewrite <- seq_shift, map_map.
    rewrite (map_ext _ (fun i => firstn 10
                                   (skipn (10 * i)
                                      (order_by_history table_order wanted)))).
    - rewrite concat_windows. apply firstn_all2.
      rewrite <- (Permutation_length
                    (order_by_history_perm table_order wanted)).
      unfold totalPages, ITEMS_PER_PAGE.
      pose proof (Z.div_mod (Z.of_nat (List.length wanted) + 10 - 1) 10
                            ltac:(lia)) as D.
      pose proof (Z.mod_pos_bound (Z.of_nat (List.length wanted) + 10 - 1) 10
                                  ltac:(lia)) as B.
      assert (0 <= (Z.of_nat (List.length wanted) + 10 - 1) / 10)
        by (apply Z.div_pos; lia).
      lia.
    - intros i. rewrite fetchBets_items by lia. fold wanted.
      rewrite Hsame.
      now replace (Z.to_nat (10 * (Z.of_nat (S i) - 1))) with (10 * i)%nat
        by lia. }
  rewrite E. split; [apply order_by_history_perm | split].
  - apply order_by_history_sorted.
  - intros r.
    assert (Hin : In r (order_by_history table_order wanted) <-> In r wanted).
    { split; apply Permutation_in;
        [apply Permutation_sym |]; apply order_by_history_perm. }
    rewrite Hin. subst wanted. now rewrite filter_In, history_wantedb_spec.
Qed.

Lemma history_pages_partition_witness :
  let pages := history_pages (fun _ => table_order) "alice" db_25 "bank-1"
                             None in
  Permutation (filter (history_wantedb "alice" "bank-1" None) (bets db_25))
              (List.concat pages)
  /\ StronglySorted history_order (List.concat pages)
  /\ forall r, In r (List.concat pages) <->
               In r (bets db_25) /\ history_wanted "alice" "bank-1" None r.
Proof.
  apply (history_pages_partition (fun _ => table_order) "alice" db_25
           "bank-1" None).
  intros a b Ha Hb _ _ _ Hc.
  change (bets db_25) with (map numbered_bet (seq 1 25)) in Ha, Hb.
  apply in_map_iff in Ha, Hb.
  destruct Ha as (n & <- & _), Hb as (m & <- & _).
  unfold numbered_bet in Hc. simpl created_at in Hc.
  apply Nat2Z.inj in Hc. now subst m.
Defined.

Example history_pages_db_25 :
  map (map id) (history_pages (fun _ => table_order) "alice" db_25 "bank-1"
                              None)
  = [["Y"; "X"; "W"; "V"; "U"; "T"; "S"; "R"; "Q"; "P"];
     ["O"; "N"; "M"; "L"; "K"; "J"; "I"; "H"; "G"; "F"];
     ["E"; "D"; "C"; "B"; "A"]].
Proof. reflexivity. Qed.

(** From a page between 1 and [totalPages], the two buttons of the pagination
    lead to a page between 1 and [totalPages]; the button back stays on the
    page only on page 1 and the button forward only on the last page; and the
    page they lead to, when it is fetched, holds at least one wager. *)
Theorem pagination_buttons (tie tie' : tie_order) (uid : string) (d : db)
        (selectedBank : string) (statusFilter : option bet_status) (p : Z) :
  let T := snd (fetchBets tie uid d selectedBank statusFilter p) in
  1 <= p <= totalPages T ->
  1 <= prevPage p <= totalPages T
  /\ 1 <= nextPage T p <= totalPages T
  /\ (prevPage p = p <-> p = 1)
  /\ (nextPage T p = p <-> p = totalPages T)
  /\ fst (fetchBets tie' uid d selectedBank statusFilter (prevPage p)) <> []
  /\ fst (fetchBets tie' uid d selectedBank statusFilter (nextPage T p))
     <> [].
Proof.
  intros T Hp. unfold prevPage, nextPage.
  assert (Hne : forall q, 1 <= q <= totalPages T ->
                  fst (fetchBets tie' uid d selectedBank statusFilter q)
                  <> []).
  { intros q Hq E. apply (f_equal (@List.length bet)) in E.
    apply (f_equal Z.of_nat) in E.
    rewrite fetchBets_length in E by lia.
    destruct Hq as (Hq1 & Hq2). apply totalPages_spec in Hq2.
    subst T. rewrite fetchBets_count in Hq2.
    change (Z.of_nat (List.length (@nil bet))) with 0 in E. lia. }
  split; [lia | split; [lia | split; [lia | split; [lia | split]]]];
    apply Hne; lia.
Qed.

Lemma pagination_buttons_witness :
  let T := snd (fetchBets table_order "alice" db_25 "bank-1" None 2) in
  1 <= prevPage 2 <= totalPages T
  /\ 1 <= nextPage T 2 <= totalPages T
  /\ (prevPage 2 = 2 <-> 2 = 1)
  /\ (nextPage T 2 = 2 <-> 2 = totalPages T)
  /\ fst (fetchBets table_order "alice" db_25 "bank-1" None (prevPage 2))
     <> []
  /\ fst (fetchBets table_order "alice" db_25 "bank-1" None (nextPage T 2))
     <> [].
Proof.
  apply (pagination_buttons table_order table_order "alice" db_25 "bank-1"
           None 2).
  vm_compute. split; discriminate.
Defined.

(** With twenty-five wagers there are three pages, and from page 2 the
    buttons lead to pages 1 and 3. *)
Example pagination_buttons_db_25 :
  let T := snd (fetchBets table_order "alice" db_25 "bank-1" None 2) in
  T = 25 /\ totalPages T = 3 /\ prevPage 2 = 1 /\ nextPage T 2 = 3.
Proof. repeat split. Qed.

(** ** The daily views *)

Lemma insert_by_perm (before : bet -> bet -> bool) (x : bet) (l : list bet) :
  Permutation (x :: l) (insert_by before x l).
Proof.
  induction l as [| y rest IH]; simpl.
  - reflexivity.
  - destruct (before x y).
    + reflexivity.
    + rewrite perm_swap. now apply perm_skip.
Qed.

Lemma sort_by_perm (before : bet -> bet -> bool) (l : list bet) :
  Permutation l (sort_by before l).
Proof.
  induction l as [| x rest IH]; simpl.
  - reflexivity.
  - rewrite <- insert_by_perm. now apply perm_skip.
Qed.

Lemma count_status_perm (s : bet_status) (l l' : list bet) :
  Permutation l l' -> count_status s l = count_status s l'.
Proof.
  induction 1; cbn -[Z.add]; lia.
Qed.

Lemma Zlength_perm (l l' : list bet) :
  Permutation l l' -> Zlength l = Zlength l'.
Proof.
  intros H. rewrite !Zlength_correct. now rewrite (Permutation_length H).
Qed.

(** For the same caller, bank and date, the summary of the daily page and
    the statistics of the dashboard agree on the number of wagers, the number
    won and the number lost, although the daily page orders its rows and the
    dashboard does not. *)
Theorem daily_views_agree (uid : string) (d : db) (bankId : string)
        (date : Z) :
  let s := fetchDailyStats uid d bankId date in
  let c := calculateDailySummary (dailyFetchBets uid d bankId date) in
  total c = total_bets s /\ s_won c = total_won s
  /\ s_lost c = total_lost s.
Proof.
  unfold fetchDailyStats, dailyFetchBets, daily_reduce, calculateDailySummary.
  set (l := filter _ (filter _ (select_bets uid d))).
  rewrite daily_fold_spec, summary_fold_spec.
  cbn -[Z.add count_status sum_contributions Zlength].
  pose proof (sort_by_perm created_before l) as P.
  rewrite <- (Zlength_perm _ _ P), <- !(count_status_perm _ _ _ P).
  now repeat split.
Qed.

Lemma count_status_partition (l : list bet) :
  Zlength l
  = count_status won l + count_status lost l + count_status open l
  /\ 0 <= count_status won l /\ 0 <= count_status lost l
  /\ 0 <= count_status open l.
Proof.
  induction l as [| b rest IH].
  - rewrite Zlength_nil. cbn. lia.
  - rewrite Zlength_cons. cbn -[Z.add]. destruct (status b); cbn -[Z.add]; lia.
Qed.

(** In the summary of the daily page every wager is counted once: the total
    is the number of wagers, and it is the won count plus the lost count plus
    the number of open wagers. *)
Theorem calculateDailySummary_counts (l : list bet) :
  let c := calculateDailySummary l in
  total c = Z.of_nat (List.length l)
  /\ total c = s_won c + s_lost c + count_status open l
  /\ 0 <= s_won c /\ 0 <= s_lost c.
Proof.
  unfold calculateDailySummary. rewrite summary_fold_spec.
  cbn -[Z.add count_status sum_contributions sum_amounts Zlength].
  destruct (count_status_partition l) as (E & H1 & H2 & H3).
  rewrite <- Zlength_correct. repeat split; lia.
Qed.

(** ** The sign of a profit *)

(** For an amount of at least 0.00 and odds of at least 1.00, the profit of a
    won wager is never negative, and it is 0.00 exactly when
    [amount * (odds - 1)] is below 0.005: at odds 1.00, or for a small stake
    at low odds.  The profit of a lost wager is minus the amount. *)
Theorem settle_sign (a o : Z) :
  0 <= a -> 100 <= o ->
  (forall p, settle a o won = Ok p ->
             0 <= p /\ (p = 0 <-> a * (o - 100) < 50))
  /\ (forall p, settle a o lost = Ok p -> p = - a /\ p <= 0).
Proof.
  intros Ha Ho. split.
  - intros p H. unfold settle, numeric_10_2 in H.
    destruct (Z.abs _ <? NUMERIC_10_2_LIMIT); [| discriminate].
    assert (E : p = round_half_away (a * o - 100 * a) 100) by congruence.
    clear H.
    destruct (round_half_away_nonneg (a * o - 100 * a) 100
                ltac:(nia) ltac:(lia)) as (Hp & Hb).
    rewrite <- E in Hp, Hb. split; [assumption | nia].
  - intros p H. simpl in H. apply numeric_10_2_unit_Ok in H.
    destruct H as (-> & _). lia.
Qed.

Lemma settle_sign_witness :
  (forall p, settle 10000 100 won = Ok p ->
             0 <= p /\ (p = 0 <-> 10000 * (100 - 100) < 50))
  /\ (forall p, settle 10000 100 lost = Ok p -> p = - 10000 /\ p <= 0).
Proof.
  apply (settle_sign 10000 100); lia.
Defined.

Example settle_won_at_odds_1 : settle 10000 100 won = Ok 0.
Proof. reflexivity. Qed.

Example settle_won_small_stake : settle 1 120 won = Ok 0.
Proof. reflexivity. Qed.

(** ** New users *)

Lemma split_part_1_spec (s : string) (c : ascii) :
  occurs c (split_part_1 s c) = false
  /\ (occurs c s = false -> split_part_1 s c = s)
  /\ exists rest, s = (split_part_1 s c ++ rest)%string
                  /\ (occurs c s = true -> exists tl, rest = String c tl).
Proof.
  induction s as [| x s (IH1 & IH2 & rest & IH3 & IH4)]; simpl.
  - split; [reflexivity | split; [reflexivity |]].
    exists EmptyString. split; [reflexivity | discriminate].
  - destruct (Ascii.eqb_spec x c) as [-> | Hx]; simpl.
    + split; [reflexivity | split; [discriminate |]].
      exists (String c s). split; [reflexivity |]. intros _. now exists s.
    + apply Ascii.eqb_neq in Hx. rewrite Hx. simpl.
      split; [assumption | split].
      * intros H. now rewrite IH2.
      * exists rest. split; [now rewrite <- IH3 | assumption].
Qed.

Lemma handle_new_user_Ok (now : Z) (new_id : string)
      (meta_username email : option string) (ps ps' : list profile) :
  handle_new_user now new_id meta_username email ps = Ok ps' ->
  exists u,
    COALESCE_text meta_username
      (option_map (fun e => split_part_1 e "@"%char) email) = Some u
    /\ ps' = (ps ++ [mk_profile new_id u now])%list
    /\ ~ In new_id (map pr_id ps)
    /\ ~ In u (map username ps).
Proof.
  unfold handle_new_user. intros H.
  destruct (COALESCE_text _ _) as [u |]; [| discriminate].
  bind_inv H. bind_inv H. injection H as <-.
  apply guard_Ok, negb_true_iff, not_true_iff_false in Ha, Ha0.
  exists u. split; [reflexivity | split; [reflexivity | split]].
  - intros Hin. apply Ha. apply in_map_iff in Hin.
    destruct Hin as (q & E & Hq). apply existsb_exists.
    exists q. split; [assumption | now apply String.eqb_eq].
  - intros Hin. apply Ha0. apply in_map_iff in Hin.
    destruct Hin as (q & E & Hq). apply existsb_exists.
    exists q. split; [assumption | now apply String.eqb_eq].
Qed.

(** When [handle_new_user] succeeds it appends one profile for the new user.
    Its user name is the one of the metadata when there is one; otherwise it
    is the part of the e-mail address before the first "@" (the whole
    address when it has none), so it holds no "@" and the address starts
    with it.  The user name and the identifier were not in the table. *)
Theorem handle_new_user_profile (now : Z) (new_id : string)
        (meta_username email : option string) (ps ps' : list profile) :
  handle_new_user now new_id meta_username email ps = Ok ps' ->
  exists u,
    ps' = (ps ++ [mk_profile new_id u now])%list
    /\ ~ In new_id (map pr_id ps)
    /\ ~ In u (map username ps)
    /\ (forall m, meta_username = Some m -> u = m)
    /\ (meta_username = None ->
        exists e rest,
          email = Some e /\ e = (u ++ rest)%string
          /\ occurs "@"%char u = false
          /\ (occurs "@"%char e = true -> exists tl, rest = String "@" tl)
          /\ (occurs "@"%char e = false -> u = e)).
Proof.
  intros H. apply handle_new_user_Ok in H.
  destruct H as (u & Hu & -> & Hid & Hname).
  exists u. split; [reflexivity | split; [assumption | split; [assumption |]]].
  split.
  - intros m ->. simpl in Hu. congruence.
  - intros ->. simpl in Hu. destruct email as [e |]; [| discriminate].
    simpl in Hu. injection Hu as <-.
    destruct (split_part_1_spec e "@"%char) as (H1 & H2 & rest & H3 & H4).
    exists e, rest. now repeat split.
Qed.

Lemma handle_new_user_profile_witness :
  exists u,
    [mk_profile "alice" "ana" 1]
    = ([] ++ [mk_profile "alice" u 1])%list
    /\ ~ In "alice" (map pr_id [])
    /\ ~ In u (map username [])
    /\ (forall m, @None string = Some m -> u = m)
    /\ (@None string = None ->
        exists e rest,
          Some "ana@example.com" = Some e /\ e = (u ++ rest)%string
          /\ occurs "@"%char u = false
          /\ (occurs "@"%char e = true -> exists tl, rest = String "@" tl)
          /\ (occurs "@"%char e = false -> u = e)).
Proof.
  apply (handle_new_user_profile 1 "alice" None (Some "ana@example.com") []
           [mk_profile "alice" "ana" 1]).
  reflexivity.
Defined.

(** Two sign-ups without a user name in the metadata whose e-mail addresses
    have the same part before the "@" cannot both get a profile: once the
    first has one, the insert for the second violates the [UNIQUE] constraint
    on [username]. *)
Theorem handle_new_user_same_local_part (now1 now2 : Z) (id1 id2 : string)
        (e1 e2 : string) (ps ps1 : list profile) :
  handle_new_user now1 id1 None (Some e1) ps = Ok ps1 ->
  split_part_1 e1 "@"%char = split_part_1 e2 "@"%char ->
  handle_new_user now2 id2 None (Some e2) ps1 = Err unique_violation.
Proof.
  intros H E. apply handle_new_user_Ok in H.
  destruct H as (u & Hu & -> & _ & _). simpl in Hu. injection Hu as <-.
  unfold handle_new_user. simpl. rewrite <- E.
  destruct (negb (existsb (fun q => (pr_id q =? id2)%string) _));
    simpl; [| reflexivity].
  rewrite existsb_app. simpl. rewrite String.eqb_refl.
  now rewrite orb_true_r.
Qed.

Lemma handle_new_user_same_local_part_witness :
  handle_new_user 2 "bob" None (Some "ana@example.org")
                  [mk_profile "alice" "ana" 1]
  = Err unique_violation.
Proof.
  apply (handle_new_user_same_local_part 1 2 "alice" "bob"
           "ana@example.com" "ana@example.org" []
           [mk_profile "alice" "ana" 1]); reflexivity.
Defined.

Example handle_new_user_no_email :
  handle_new_user 1 "alice" None None [] = Err not_null_violation.
Proof. reflexivity. Qed.

(** ** Rows of another owner *)

(** A caller cannot create a wager or a bank in the name of another user:
    an insert whose row has another [user_id] raises an error, whatever the
    database. *)
Theorem inserts_reject_foreign_owner (uid : string) (now : Z) (d : db) :
  (forall NEW, user_id NEW <> uid ->
               exists e, insert_bet uid now NEW d = Err e)
  /\ (forall NEW, b_user_id NEW <> uid ->
                  exists e, insert_bank uid NEW d = Err e).
Proof.
  split; intros NEW Hne.
  - destruct (insert_bet uid now NEW d) as [d' | e] eqn:H;
      [| now exists e].
    exfalso. unfold insert_bet in H.
    bind_inv H. bind_inv H. bind_inv H. destruct a1 as (NEW' & d1).
    bind_inv H.
    apply update_bank_balance_keeps in Ha1.
    destruct Ha1 as (_ & _ & E & _).
    apply guard_Ok, String.eqb_eq in Ha2. congruence.
  - destruct (insert_bank uid NEW d) as [d' | e] eqn:H;
      [| now exists e].
    exfalso. unfold insert_bank in H.
    bind_inv H. bind_inv H. bind_inv H.
    apply guard_Ok, String.eqb_eq in Ha1. congruence.
Qed.

Example insert_bet_foreign_owner :
  insert_bet "mallory" 1 wager_1 db_0 = Err rls_violation.
Proof. reflexivity. Qed.

(** An insert or a delete of banks issued by one user changes nothing of
    what another user reads from the table of banks. *)
Theorem banks_statements_isolated (uid other : string) (d : db) :
  other <> uid ->
  (forall NEW d', insert_bank uid NEW d = Ok d' ->
                  select_banks other d' = select_banks other d)
  /\ (forall bankId d', handleDeleteBank uid bankId d = Ok d' ->
                        select_banks other d' = select_banks other d).
Proof.
  intros Hne. split.
  - intros NEW d' H. unfold insert_bank in H.
    bind_inv H. bind_inv H. bind_inv H. bind_inv H. injection H as <-.
    apply guard_Ok, String.eqb_eq in Ha1.
    unfold select_banks. simpl. rewrite filter_app. simpl.
    destruct (String.eqb_spec (b_user_id NEW) other) as [E | E];
      [congruence | now rewrite app_nil_r].
  - intros bk d' H. unfold handleDeleteBank, delete_bank in H.
    injection H as <-. unfold select_banks. simpl.
    induction (banks d) as [| k rest IH]; simpl; [reflexivity |].
    destruct (String.eqb_spec (b_user_id k) uid) as [E | E].
    + destruct (String.eqb_spec (b_user_id k) other) as [E' | E'];
        [congruence |].
      destruct (b_id k =? bk)%string; simpl; [assumption |].
      destruct (String.eqb_spec (b_user_id k) other); [congruence | assumption].
    + rewrite andb_false_r. simpl.
      destruct (b_user_id k =? other)%string; [now rewrite IH | assumption].
Qed.

Lemma banks_statements_isolated_witness :
  (forall NEW d', insert_bank "mallory" NEW db_3 = Ok d' ->
                  select_banks "alice" d' = select_banks "alice" db_3)
  /\ (forall bankId d', handleDeleteBank "mallory" bankId db_3 = Ok d' ->
                        select_banks "alice" d' = select_banks "alice" db_3).
Proof.
  apply (banks_statements_isolated "mallory" "alice" db_3). discriminate.
Defined.
